(** * The backend API server of open-match (cmd/backendapi/apisrv/apisrv.go)

    A shallow embedding of the gRPC handlers [CreateMatch],
    [CreateAssignments] and [DeleteAssignments] and of the helper
    [getPlayerIdsFromRoster], together with the properties of them that the
    specification of the repository states.

    The handlers talk to collaborators that live outside the file: redis
    (through the packages redispb, redisHelpers and ignorelist), the
    configuration (viper), the JSON libraries (gjson, jsonpb), the id
    generator (xid), the request context and the OpenCensus counters.  Their
    answers are the fields of a [World]; every call a handler makes to redis
    or to a counter is appended, in program order, to a log of [Event]s.
    Log lines (logrus) have no bearing on what a handler returns or writes
    and are left out. *)

From Stdlib Require Import Ascii String ZArith.
From stdpp Require Import base option list gmap strings.

(* String literals are read in [string_scope]; [++] stays the append of
   lists, strings are joined with stdpp's [+:+]. *)
Open Scope string_scope.
Open Scope list_scope.

(** ** Data model (package pb, generated from the protobuf definitions) *)

(** Go's [error]: [None] is [nil], [Some msg] an error whose [Error()] is
    [msg]. *)
Definition error := option string.

(** [errors.New] *)
Definition errors_New (msg : string) : error := Some msg.

(** Modelled from the spec: package pb is not part of the sources at hand.
    A player carries its [Id] and its [Assignment] (empty when unset); the
    remaining fields of the message are kept together, opaque, in [Rest].
    Messages reach a handler freshly decoded from the wire, so the pointers
    of the Go structures are never nil and never shared: rosters and players
    are values here, and an update in place is the updated value handed
    back. *)
Module Player.
Record t := mk { Id : string; Assignment : string; Rest : string }.

(** [player.Assignment = v] *)
Definition setAssignment (v : string) (p : t) : t :=
  {| Id := Id p; Assignment := v; Rest := Rest p |}.
End Player.

(** Modelled from the spec: a roster is a named group with an ordered
    sequence of players. *)
Module Roster.
Record t := mk { Name : string; Players : list Player.t }.

Definition setPlayers (ps : list Player.t) (r : t) : t :=
  {| Name := Name r; Players := ps |}.
End Roster.

(** Modelled from the spec: a pool specification; opaque to this file. *)
Module PlayerPool.
Record t := mk { Name : string; Filters : string }.
End PlayerPool.

(** Modelled from the spec: the match object (the spec's MatchProfile).
    [Pools] and [Rosters] are Go slices that the code compares with [nil]:
    [None] is the nil slice. *)
Module MatchObject.
Record t := mk {
  Id : string;
  Properties : string;
  Error : string;
  Rosters : option (list Roster.t);
  Pools : option (list PlayerPool.t)
}.

(** [backend.MatchObject{}] *)
Definition empty : t :=
  {| Id := ""; Properties := ""; Error := ""; Rosters := None; Pools := None |}.

(** [backend.MatchObject{Id: id}] *)
Definition withId (id : string) : t :=
  {| Id := id; Properties := ""; Error := ""; Rosters := None; Pools := None |}.

(** [mo.Error = e] *)
Definition setError (e : string) (mo : t) : t :=
  {| Id := Id mo; Properties := Properties mo; Error := e;
     Rosters := Rosters mo; Pools := Pools mo |}.

(** [mo.Pools = ps] *)
Definition setPools (ps : option (list PlayerPool.t)) (mo : t) : t :=
  {| Id := Id mo; Properties := Properties mo; Error := Error mo;
     Rosters := Rosters mo; Pools := ps |}.

(** [mo.Rosters = rs] *)
Definition setRosters (rs : option (list Roster.t)) (mo : t) : t :=
  {| Id := Id mo; Properties := Properties mo; Error := Error mo;
     Rosters := rs; Pools := Pools mo |}.
End MatchObject.

(** Modelled from the spec: a default assignment and the rosters whose
    players receive it. *)
Module Assignments.
Record t := mk { Rosters : list Roster.t; Assignment : string }.

Definition setRosters (rs : list Roster.t) (a : t) : t :=
  {| Rosters := rs; Assignment := Assignment a |}.
End Assignments.

(** Modelled from the spec: the answer of the assignment and deletion
    calls. *)
Module Result.
Record t := mk { Success : bool; Error : string }.
End Result.

(** ** The collaborators *)

(** The configuration, as the handlers query it (viper). *)
Module Viper.
Record t := mk {
  IsSet : string -> bool;
  GetString : string -> string;
  GetInt : string -> Z
}.
End Viper.

(** What the world outside answers during one call of a handler.  Every
    field is the outcome of the library call of the same name on the given
    arguments; the context and the connection pool, which every call
    receives, are part of the world and not repeated. *)
Record World := {
  (** [s.cfg] *)
  cfg : Viper.t;
  (** [xid.New().String()] *)
  xid_New : string;
  (** [gjson.Get(json, path)]: [Some s] when the result [Exists()], [s]
      being its [String()] *)
  gjson_Get : string -> string -> option string;
  (** [gjson.Valid(json)] *)
  gjson_Valid : string -> bool;
  (** [jsonpb.UnmarshalString(str, &backend.MatchObject{})]: the object
      filled in, or [None] on an error *)
  jsonpb_UnmarshalString : string -> option MatchObject.t;
  (** [redispb.MarshalToRedis(ctx, pool, pb, ttl)] *)
  redispb_MarshalToRedis : MatchObject.t -> Z -> error;
  (** [redisHelpers.Update(ctx, pool, key, value)] *)
  redisHelpers_Update : string -> string -> error;
  (** what is received from the channel of
      [redispb.Watcher(bo, pool, pb)]: [None] when it was closed without a
      value *)
  redispb_Watcher : MatchObject.t -> option MatchObject.t;
  (** [watcherBOCtx.Context().Err()] once the channel is closed *)
  ctx_Err : error;
  (** [redisHelpers.UpdateMultiFields(ctx, pool, kv, field)] *)
  redisHelpers_UpdateMultiFields : gmap string string -> string -> error;
  (** [ignorelist.Move(ctx, pool, ids, src, dest)] *)
  ignorelist_Move : list string -> string -> string -> error;
  (** [redisHelpers.DeleteMultiFields(ctx, pool, ids, field)] *)
  redisHelpers_DeleteMultiFields : list string -> string -> error
}.

(** The OpenCensus measures the handlers record. *)
Inductive Measure :=
| BeGrpcRequests
| BeGrpcErrors
| BeAssignments
| BeAssignmentFailures
| BeAssignmentDeletions
| BeAssignmentDeletionFailures.

(** The calls a handler makes to the state storage and to the counters. *)
Inductive Event :=
| EvMarshalToRedis (pb : MatchObject.t) (ttl : Z)
| EvUpdate (key value : string)
| EvWatcher (pb : MatchObject.t)
| EvUpdateMultiFields (kv : gmap string string) (field : string)
| EvMove (ids : list string) (src dest : string)
| EvDeleteMultiFields (ids : list string) (field : string)
| EvStat (m : Measure) (v : Z).

(** ** Handlers as computations that log their calls *)

Definition M (A : Type) : Type := list Event -> A * list Event.

#[global] Instance M_ret : MRet M := fun A (a : A) log => (a, log).

#[global] Instance M_bind : MBind M :=
  fun A B (f : A -> M B) (m : M A) log => let '(a, log') := m log in f a log'.

(** Make one call: log it and hand back the world's answer. *)
Definition call {A : Type} (ev : Event) (answer : A) : M A :=
  fun log => (answer, log ++ [ev]).

(** A handler run from an empty log. *)
Definition run {A : Type} (m : M A) : A * list Event := m [].
Definition result {A : Type} (m : M A) : A := fst (run m).
Definition trace {A : Type} (m : M A) : list Event := snd (run m).

Section Calls.
Context (w : World).

Definition MarshalToRedis (pb : MatchObject.t) (ttl : Z) : M error :=
  call (EvMarshalToRedis pb ttl) (redispb_MarshalToRedis w pb ttl).

Definition Update (key value : string) : M error :=
  call (EvUpdate key value) (redisHelpers_Update w key value).

Definition Watcher (pb : MatchObject.t) : M (option MatchObject.t) :=
  call (EvWatcher pb) (redispb_Watcher w pb).

Definition UpdateMultiFields (kv : gmap string string) (field : string) : M error :=
  call (EvUpdateMultiFields kv field) (redisHelpers_UpdateMultiFields w kv field).

Definition Move (ids : list string) (src dest : string) : M error :=
  call (EvMove ids src dest) (ignorelist_Move w ids src dest).

Definition DeleteMultiFields (ids : list string) (field : string) : M error :=
  call (EvDeleteMultiFields ids field) (redisHelpers_DeleteMultiFields w ids field).

End Calls.

(** [stats.Record(fnCtx, m.M(v))] *)
Definition stats_Record (m : Measure) (v : Z) : M unit :=
  call (EvStat m v) tt.

(** ** CreateMatch *)

(** The double quote, for the JSON the compatibility code assembles. *)
Definition dquote : string := String "034"%char EmptyString.

Section CreateMatch.
Context (w : World).

(** No protobuf pools were passed: look for a JSON version in the
    properties ([fmt.Sprintf] with the format [{"pools": %v}]). *)
Definition poolsFromProperties (profile : MatchObject.t) : MatchObject.t :=
  match MatchObject.Pools profile with
  | Some _ => profile
  | None =>
    if Viper.IsSet (cfg w) "jsonkeys.pools" then
      match gjson_Get w (MatchObject.Properties profile)
                        (Viper.GetString (cfg w) "jsonkeys.pools") with
      | None => profile
      | Some v =>
        let poolsJSON := "{" +:+ dquote +:+ "pools" +:+ dquote +:+ ": " +:+ v +:+ "}" in
        match jsonpb_UnmarshalString w poolsJSON with
        | None => profile
        | Some ppools => MatchObject.setPools (MatchObject.Pools ppools) profile
        end
      end
    else profile
  end.

(** The same for the rosters. *)
Definition rostersFromProperties (profile : MatchObject.t) : MatchObject.t :=
  match MatchObject.Rosters profile with
  | Some _ => profile
  | None =>
    if Viper.IsSet (cfg w) "jsonkeys.rosters" then
      match gjson_Get w (MatchObject.Properties profile)
                        (Viper.GetString (cfg w) "jsonkeys.rosters") with
      | None => profile
      | Some v =>
        let rostersJSON := "{" +:+ dquote +:+ "rosters" +:+ dquote +:+ ": " +:+ v +:+ "}" in
        match jsonpb_UnmarshalString w rostersJSON with
        | None => profile
        | Some prosters => MatchObject.setRosters (MatchObject.Rosters prosters) profile
        end
      end
    else profile
  end.

(** [requestKey := moID + "." + profile.Id] *)
Definition requestKey (moID : string) (profile : MatchObject.t) : string :=
  moID +:+ "." +:+ MatchObject.Id profile.

(** The result built when the channel was closed without a value: the zero
    match object with the cause in its [Error]. *)
Definition closedMO : MatchObject.t :=
  match ctx_Err w with
  | Some e => MatchObject.setError ("channel closed: " +:+ e) MatchObject.empty
  | None =>
    MatchObject.setError "channel closed: backoff deadline exceeded" MatchObject.empty
  end.

Definition CreateMatch (profile : MatchObject.t) : M (MatchObject.t * error) :=
  let moID := xid_New w in
  let requestKey := requestKey moID profile in
  let profile := poolsFromProperties profile in
  let profile := rostersFromProperties profile in
  (* Write profile to state storage *)
  err ← MarshalToRedis w profile (Viper.GetInt (cfg w) "redis.expirations.matchobject");
  match err with
  | Some _ =>
    (* Failure! Return empty match object and the error *)
    stats_Record BeGrpcErrors 1;;
    mret (MatchObject.empty, err)
  | None =>
    (* Queue the request ID to be sent to an MMF *)
    err ← Update w (Viper.GetString (cfg w) "queues.profiles.name") requestKey;
    match err with
    | Some _ =>
      stats_Record BeGrpcErrors 1;;
      mret (MatchObject.empty, err)
    | None =>
      recv ← Watcher w (MatchObject.withId requestKey);
      match recv with
      | None =>
        stats_Record BeGrpcRequests 1;;
        let newMO := closedMO in
        mret (newMO,
              errors_New ("Error retrieving matchmaking results from state storage: "
                          +:+ MatchObject.Error newMO))
      | Some newMO =>
        let newMO :=
          if gjson_Valid w (MatchObject.Properties profile) then newMO
          else MatchObject.setError "retreived properties json was malformed" newMO in
        if decide (MatchObject.Error newMO = "") then
          stats_Record BeGrpcRequests 1;;
          mret (newMO, err)
        else
          stats_Record BeGrpcErrors 1;;
          mret (newMO, errors_New (MatchObject.Error newMO))
      end
    end
  end.

End CreateMatch.

(** ** Assignments *)

(** [getPlayerIdsFromRoster] returns the slice of player ID strings
    contained in the input roster. *)
Definition getPlayerIdsFromRoster (r : Roster.t) : list string :=
  foldl (fun playerIDs p => playerIDs ++ [Player.Id p]) [] (Roster.Players r).

(** The body of the inner loop of [CreateAssignments] on one player:
    the player as the loop leaves it and the map of assignments. *)
Definition assignPlayer (dflt : string) (player : Player.t)
    (players : gmap string string) : Player.t * gmap string string :=
  if decide (Player.Id player = "") then (player, players)
  else
    let player :=
      if decide (Player.Assignment player = "")
      then Player.setAssignment dflt player   (* use the default one *)
      else player in
    (player, <[Player.Id player := Player.Assignment player]> players).

(** [for _, player := range roster.Players] *)
Fixpoint assignPlayers (dflt : string) (ps : list Player.t)
    (players : gmap string string) : list Player.t * gmap string string :=
  match ps with
  | [] => ([], players)
  | player :: rest =>
    let '(player, players) := assignPlayer dflt player players in
    let '(rest, players) := assignPlayers dflt rest players in
    (player :: rest, players)
  end.

(** [for _, roster := range a.Rosters]: the rosters as the loop leaves
    them, the ids collected and the map of assignments. *)
Fixpoint assignRosters (dflt : string) (rs : list Roster.t)
    (playerIDs : list string) (players : gmap string string)
    : list Roster.t * list string * gmap string string :=
  match rs with
  | [] => ([], playerIDs, players)
  | roster :: rest =>
    let '(ps, players) := assignPlayers dflt (Roster.Players roster) players in
    let roster := Roster.setPlayers ps roster in
    let playerIDs := playerIDs ++ getPlayerIdsFromRoster roster in
    let '(rest, playerIDs, players) := assignRosters dflt rest playerIDs players in
    (roster :: rest, playerIDs, players)
  end.

(** [CreateAssignments] hands back, besides what the Go function returns,
    the [Assignments] of the caller as the call leaves it. *)
Definition CreateAssignments (w : World) (a : Assignments.t)
    : M (Assignments.t * (Result.t * error)) :=
  (* Make a map of players and what assignments we want to send them. *)
  let '(rosters, playerIDs, players) :=
    assignRosters (Assignments.Assignment a) (Assignments.Rosters a) [] ∅ in
  let a := Assignments.setRosters rosters a in
  (* Send the players their assignments. *)
  err ← UpdateMultiFields w players "assignment";
  (* Move these players from the proposed list to the deindexed list. *)
  _ ← Move w playerIDs "proposed" "deindexed";
  match err with
  | Some e =>
    stats_Record BeGrpcErrors 1;;
    stats_Record BeAssignmentFailures (Z.of_nat (size players));;
    mret (a, ({| Result.Success := false; Result.Error := e |}, err))
  | None =>
    stats_Record BeGrpcRequests 1;;
    stats_Record BeAssignments (Z.of_nat (size players));;
    mret (a, ({| Result.Success := true; Result.Error := "" |}, err))
  end.

Definition DeleteAssignments (w : World) (r : Roster.t) : M (Result.t * error) :=
  let assignments := getPlayerIdsFromRoster r in
  err ← DeleteMultiFields w assignments "assignment";
  match err with
  | Some e =>
    stats_Record BeGrpcErrors 1;;
    stats_Record BeAssignmentDeletionFailures (Z.of_nat (length assignments));;
    mret ({| Result.Success := false; Result.Error := e |}, err)
  | None =>
    stats_Record BeGrpcRequests 1;;
    stats_Record BeAssignmentDeletions (Z.of_nat (length assignments));;
    mret ({| Result.Success := true; Result.Error := "" |}, err)
  end.

(** ** What the loops of [CreateAssignments] compute *)

(** The effective assignment of a player, in the spec's words: the player's
    own [Assignment] if set, else the default. *)
Definition effectiveAssignment (dflt : string) (p : Player.t) : string :=
  if decide (Player.Assignment p = "") then dflt else Player.Assignment p.

(** A player after the loop: one with an id and no assignment has received
    the default, any other is as it was. *)
Definition defaulted (dflt : string) (p : Player.t) : Player.t :=
  if decide (Player.Id p ≠ "" ∧ Player.Assignment p = "")
  then Player.setAssignment dflt p else p.

Definition defaultedRoster (dflt : string) (r : Roster.t) : Roster.t :=
  Roster.setPlayers (defaulted dflt <$> Roster.Players r) r.

(** Every player of every roster, in the order the loops visit them. *)
Definition allPlayers (rs : list Roster.t) : list Player.t :=
  concat (Roster.Players <$> rs).

(** One step of the map of assignments. *)
Definition recordPlayer (dflt : string) (players : gmap string string) (p : Player.t)
    : gmap string string :=
  if decide (Player.Id p = "") then players
  else <[Player.Id p := effectiveAssignment dflt p]> players.

(** The write map in the spec's words: every player with a non-empty id,
    across every roster, is mapped to its effective assignment. *)
Definition writeMapSpec (a : Assignments.t) : gmap string string :=
  foldl (fun m p => <[Player.Id p := effectiveAssignment (Assignments.Assignment a) p]> m)
        ∅ (filter (fun p => Player.Id p ≠ "") (allPlayers (Assignments.Rosters a))).

(** The map read off a structure as it stands: every player with a
    non-empty id is mapped to the [Assignment] it carries. *)
Definition carriedAssignments (a : Assignments.t) : gmap string string :=
  foldl (fun m p => <[Player.Id p := Player.Assignment p]> m)
        ∅ (filter (fun p => Player.Id p ≠ "") (allPlayers (Assignments.Rosters a))).

(** The ids of every player of every roster, filtered by nothing. *)
Definition allPlayerIds (rs : list Roster.t) : list string :=
  Player.Id <$> allPlayers rs.

(** ** CreateMatch, step by step *)

(** The profile as [CreateMatch] writes it: after the two compatibility
    steps. *)
Definition fromProperties (w : World) (profile : MatchObject.t) : MatchObject.t :=
  rostersFromProperties w (poolsFromProperties w profile).

(** The outcome of each of the three steps of a call on [profile]. *)
Definition writeOutcome (w : World) (profile : MatchObject.t) : error :=
  redispb_MarshalToRedis w (fromProperties w profile)
    (Viper.GetInt (cfg w) "redis.expirations.matchobject").

Definition enqueueOutcome (w : World) (profile : MatchObject.t) : error :=
  redisHelpers_Update w (Viper.GetString (cfg w) "queues.profiles.name")
    (requestKey (xid_New w) profile).

Definition watchOutcome (w : World) (profile : MatchObject.t) : option MatchObject.t :=
  redispb_Watcher w (MatchObject.withId (requestKey (xid_New w) profile)).

(** ** Vocabulary of the statements *)

(** [s] contains [sub]. *)
Definition contains (s sub : string) : Prop :=
  exists pre post, s = pre +:+ sub +:+ post.

(** The pairing of result and error that the spec asks of every return:
    no error and an empty [Error] field, or an error and a non-empty
    one. *)
Definition errorPaired (r : MatchObject.t * error) : Prop :=
  (r.2 = None ∧ MatchObject.Error r.1 = "")
  ∨ (r.2 ≠ None ∧ MatchObject.Error r.1 ≠ "").

(** Modelled from the spec: a record of the store is kept under the id of
    the match object it holds (4.5: a match object's record is deleted by
    its id).  Package redispb, which writes and watches the records, is not
    part of the sources at hand; its functions receive a message and no key,
    and [CreateMatch] watches the record under [requestKey] by handing
    [Watcher] a message whose [Id] is [requestKey]. *)
Definition redispb_key (pb : MatchObject.t) : string := MatchObject.Id pb.

(** The calls to the store, as opposed to the counters. *)
Definition isStoreCall (ev : Event) : bool :=
  match ev with
  | EvStat _ _ => false
  | _ => true
  end.

Definition storeCalls (tr : list Event) : list Event :=
  filter (fun ev => isStoreCall ev = true) tr.

(** The order of C7 as the spec states it, on a call whose three steps all
    succeed: a write under the request key, the enqueue of the request key,
    the watch on the request key. *)
Definition orderedUnderRequestKey (key : string) (tr : list Event) : Prop :=
  exists pb ttl queue pbw,
    storeCalls tr = [EvMarshalToRedis pb ttl; EvUpdate queue key; EvWatcher pbw]
    ∧ redispb_key pb = key ∧ redispb_key pbw = key.

(** The use of the request key in C8 as the spec states it: the key of every
    record written and of every record watched. *)
Definition recordKeyIs (key : string) (ev : Event) : Prop :=
  match ev with
  | EvMarshalToRedis pb _ => redispb_key pb = key
  | EvWatcher pb => redispb_key pb = key
  | _ => True
  end.

(** The use of the request key in the code: the item enqueued and the key
    watched; the record written is under the id of the profile. *)
Definition keyedByRequest (profileId key : string) (ev : Event) : Prop :=
  match ev with
  | EvMarshalToRedis pb _ => redispb_key pb = profileId
  | EvUpdate _ item => item = key
  | EvWatcher pb => redispb_key pb = key
  | _ => True
  end.

(** The world with another answer of [ignorelist.Move]. *)
Definition withMove (move : list string -> string -> string -> error) (w : World) : World :=
  {| cfg := cfg w;
     xid_New := xid_New w;
     gjson_Get := gjson_Get w;
     gjson_Valid := gjson_Valid w;
     jsonpb_UnmarshalString := jsonpb_UnmarshalString w;
     redispb_MarshalToRedis := redispb_MarshalToRedis w;
     redisHelpers_Update := redisHelpers_Update w;
     redispb_Watcher := redispb_Watcher w;
     ctx_Err := ctx_Err w;
     redisHelpers_UpdateMultiFields := redisHelpers_UpdateMultiFields w;
     ignorelist_Move := move;
     redisHelpers_DeleteMultiFields := redisHelpers_DeleteMultiFields w |}.

(** The world with another identifier from [xid.New]. *)
Definition withXid (moID : string) (w : World) : World :=
  {| cfg := cfg w;
     xid_New := moID;
     gjson_Get := gjson_Get w;
     gjson_Valid := gjson_Valid w;
     jsonpb_UnmarshalString := jsonpb_UnmarshalString w;
     redispb_MarshalToRedis := redispb_MarshalToRedis w;
     redisHelpers_Update := redisHelpers_Update w;
     redispb_Watcher := redispb_Watcher w;
     ctx_Err := ctx_Err w;
     redisHelpers_UpdateMultiFields := redisHelpers_UpdateMultiFields w;
     ignorelist_Move := ignorelist_Move w;
     redisHelpers_DeleteMultiFields := redisHelpers_DeleteMultiFields w |}.

(** ** Concrete worlds and inputs *)

(** A configuration without the JSON compatibility keys. *)
Definition demoCfg : Viper.t :=
  {| Viper.IsSet := fun _ => false;
     Viper.GetString := fun k =>
       if String.eqb k "queues.profiles.name" then "profileq" else "";
     Viper.GetInt := fun _ => 600%Z |}.

(** A world that answers each call with the given outcome, whatever the
    arguments; its JSON checker accepts the empty document [{}] only. *)
Definition demoWorld (write enqueue : error) (watch : option MatchObject.t)
    (ctxErr batch move : error) : World :=
  {| cfg := demoCfg;
     xid_New := "9m4e2mr0ui3e8a215n4g";
     gjson_Get := fun _ _ => None;
     gjson_Valid := fun json => bool_decide (json = "{}");
     jsonpb_UnmarshalString := fun _ => None;
     redispb_MarshalToRedis := fun _ _ => write;
     redisHelpers_Update := fun _ _ => enqueue;
     redispb_Watcher := fun _ => watch;
     ctx_Err := ctxErr;
     redisHelpers_UpdateMultiFields := fun _ _ => batch;
     ignorelist_Move := fun _ _ _ => move;
     redisHelpers_DeleteMultiFields := fun _ _ => batch |}.

Definition demoProfile (properties : string) : MatchObject.t :=
  {| MatchObject.Id := "profile-1"; MatchObject.Properties := properties;
     MatchObject.Error := ""; MatchObject.Rosters := None;
     MatchObject.Pools := None |}.

(** A record as a worker leaves it under the request key. *)
Definition demoMatch (properties err : string) : MatchObject.t :=
  {| MatchObject.Id := "9m4e2mr0ui3e8a215n4g.profile-1";
     MatchObject.Properties := properties;
     MatchObject.Error := err; MatchObject.Rosters := None;
     MatchObject.Pools := None |}.

(** The roster of the spec's example, and one more player without an id. *)
Definition demoAssignments : Assignments.t :=
  {| Assignments.Rosters :=
       [ {| Roster.Name := "red";
            Roster.Players :=
              [ {| Player.Id := "p1"; Player.Assignment := ""; Player.Rest := "" |};
                {| Player.Id := "p2"; Player.Assignment := "srvB"; Player.Rest := "" |} ] |} ];
     Assignments.Assignment := "srvA" |}.

Definition demoRosterWithAnonymous : Roster.t :=
  {| Roster.Name := "blue";
     Roster.Players :=
       [ {| Player.Id := "p1"; Player.Assignment := ""; Player.Rest := "" |};
         {| Player.Id := ""; Player.Assignment := ""; Player.Rest := "guest" |} ] |}.

(** ** DeleteMatch and ListMatches *)

(** What the two handlers below do, in program order: the calls of [Event],
    each with the name of the function that makes it (the [funcName] its
    counters are tagged with), the deletion of a record, a message sent on
    the stream and a pause. *)
Inductive Effect :=
| By (funcName : string) (ev : Event)
| EvDelete (key : string)
| EvSend (mo : MatchObject.t)
| EvSleep (seconds : Z).

(** [DeleteMatch], given the answer of [redisHelpers.Delete(ctx, pool, key)]
    for every key. *)
Definition DeleteMatch (redisHelpers_Delete : string -> error) (mo : MatchObject.t)
    : (Result.t * error) * list Effect :=
  let err := redisHelpers_Delete (MatchObject.Id mo) in
  match err with
  | Some e =>
    (({| Result.Success := false; Result.Error := e |}, err),
     [EvDelete (MatchObject.Id mo); By "DeleteMatch" (EvStat BeGrpcErrors 1)])
  | None =>
    (({| Result.Success := true; Result.Error := "" |}, err),
     [EvDelete (MatchObject.Id mo); By "DeleteMatch" (EvStat BeGrpcRequests 1)])
  end.

(** What the world outside answers during one call of [ListMatches]: at the
    head of each turn of the loop, whether [ctx.Done()] is ready, and the
    world in which the [CreateMatch] of that turn runs. *)
Record Stream := {
  ctx_Done : nat -> bool;
  worldAt : nat -> World
}.

(** The loop of [ListMatches] from its turn [i] on, for at most [fuel]
    turns: [None] when the loop is still running after them.  The template
    [p] is cloned for every call, so that each [CreateMatch] starts from [p]
    itself; what [matchStream.Send] answers is dropped by the code. *)
Fixpoint ListMatches_loop (s : Stream) (p : MatchObject.t) (fuel i : nat)
    (log : list Effect) : option (error * list Effect) :=
  match fuel with
  | O => None
  | S fuel =>
    if ctx_Done s i then
      (* Context cancelled: time to exit. *)
      Some (None, log ++ [By "ListMatches" (EvStat BeGrpcRequests 1)])
    else
      let requestProfile := p in
      let '((mo, err), calls) := run (CreateMatch (worldAt s i) requestProfile) in
      let log := log ++ (By "CreateMatch" <$> calls) in
      match err with
      | Some _ => Some (err, log ++ [By "ListMatches" (EvStat BeGrpcErrors 1)])
      | None => ListMatches_loop s p fuel (S i) (log ++ [EvSend mo; EvSleep 2])
      end
  end.

Definition ListMatches (s : Stream) (p : MatchObject.t) (fuel : nat)
    : option (error * list Effect) :=
  ListMatches_loop s p fuel 0 [].

(** The [CreateMatch] of turn [i]: what it returns and what it logs. *)
Definition turn (s : Stream) (p : MatchObject.t) (i : nat)
    : (MatchObject.t * error) * list Event :=
  run (CreateMatch (worldAt s i) p).

(** What a turn whose [CreateMatch] succeeds adds to the log. *)
Definition turnLog (s : Stream) (p : MatchObject.t) (i : nat) : list Effect :=
  (By "CreateMatch" <$> (turn s p i).2) ++ [EvSend (turn s p i).1.1; EvSleep 2].

(** The turns before [n] run to their end: the context is not done at
    their head and their [CreateMatch] returns no error. *)
Definition turnsCompleted (s : Stream) (p : MatchObject.t) (n : nat) : Prop :=
  forall j, (j < n)%nat -> ctx_Done s j = false ∧ (turn s p j).1.2 = None.

(** The log after [n] completed turns. *)
Definition turnsLog (s : Stream) (p : MatchObject.t) (n : nat) : list Effect :=
  concat (turnLog s p <$> seq 0 n).

(** The messages sent on the stream, in order. *)
Definition sent (log : list Effect) : list MatchObject.t :=
  omap (fun ev => match ev with EvSend mo => Some mo | _ => None end) log.

(** The pairing of [Result] and error in the handlers that answer with a
    [Result]. *)
Definition resultPaired (r : Result.t * error) : Prop :=
  match r.2 with
  | None => r.1 = {| Result.Success := true; Result.Error := "" |}
  | Some e => r.1 = {| Result.Success := false; Result.Error := e |}
  end.

(** The call of [CreateMatch] ends on a watch closed without a value. *)
Definition watchClosed (w : World) (profile : MatchObject.t) : Prop :=
  writeOutcome w profile = None ∧ enqueueOutcome w profile = None
  ∧ watchOutcome w profile = None.

(** A list move. *)
Definition isMove (ev : Event) : bool :=
  match ev with
  | EvMove _ _ _ => true
  | _ => false
  end.

(** A stream cancelled at the head of turn [n], every turn before running
    in the world [w]. *)
Definition demoStream (n : nat) (w : World) : Stream :=
  {| ctx_Done := fun i => bool_decide (n ≤ i)%nat; worldAt := fun _ => w |}.

(** A stream that is never cancelled; the world of turn [i] is [w] for
    [i < k] and [w'] from turn [k] on. *)
Definition demoStreamFrom (k : nat) (w w' : World) : Stream :=
  {| ctx_Done := fun _ => false;
     worldAt := fun i => if bool_decide (i < k)%nat then w else w' |}.

(** * Properties *)

(** ** The loops of [CreateAssignments] *)

Lemma foldl_snoc_ids (ps : list Player.t) (acc : list string) :
  foldl (fun playerIDs p => playerIDs ++ [Player.Id p]) acc ps
  = acc ++ (Player.Id <$> ps).
Proof.
  revert acc. induction ps as [|p ps IH]; intros acc; simpl.
  - by rewrite app_nil_r.
  - by rewrite IH, <- app_assoc.
Qed.

Lemma getPlayerIdsFromRoster_map (r : Roster.t) :
  getPlayerIdsFromRoster r = Player.Id <$> Roster.Players r.
Proof. unfold getPlayerIdsFromRoster. by rewrite foldl_snoc_ids. Qed.

Lemma defaulted_Id (dflt : string) (p : Player.t) :
  Player.Id (defaulted dflt p) = Player.Id p.
Proof. unfold defaulted. by case_decide. Qed.

Lemma defaulted_Assignment (dflt : string) (p : Player.t) :
  Player.Id p ≠ "" ->
  Player.Assignment (defaulted dflt p) = effectiveAssignment dflt p.
Proof.
  intros Hid. unfold defaulted, effectiveAssignment.
  destruct (decide (Player.Assignment p = "")) as [He|He].
  - rewrite decide_True by done. done.
  - rewrite decide_False by tauto. done.
Qed.

Lemma assignPlayer_eq (dflt : string) (p : Player.t) (m : gmap string string) :
  assignPlayer dflt p m = (defaulted dflt p, recordPlayer dflt m p).
Proof.
  unfold assignPlayer, defaulted, recordPlayer, effectiveAssignment.
  destruct (decide (Player.Id p = "")) as [Hi|Hi].
  - rewrite decide_False by tauto. done.
  - destruct (decide (Player.Assignment p = "")) as [He|He].
    + rewrite !decide_True by tauto. done.
    + rewrite !decide_False by tauto. done.
Qed.

Lemma assignPlayers_eq (dflt : string) (ps : list Player.t) (m : gmap string string) :
  assignPlayers dflt ps m = (defaulted dflt <$> ps, foldl (recordPlayer dflt) m ps).
Proof.
  revert m. induction ps as [|p ps IH]; intros m; [done|].
  cbn [assignPlayers]. rewrite assignPlayer_eq, IH. done.
Qed.

Lemma assignRosters_eq (dflt : string) (rs : list Roster.t)
    (ids : list string) (m : gmap string string) :
  assignRosters dflt rs ids m
  = (defaultedRoster dflt <$> rs, ids ++ allPlayerIds rs,
     foldl (recordPlayer dflt) m (allPlayers rs)).
Proof.
  revert ids m. induction rs as [|r rs IH]; intros ids m.
  - simpl. by rewrite app_nil_r.
  - cbn [assignRosters]. rewrite assignPlayers_eq, IH.
    rewrite getPlayerIdsFromRoster_map. unfold allPlayerIds, allPlayers.
    cbn [fmap list_fmap concat Roster.Players Roster.setPlayers].
    rewrite foldl_app, fmap_app, <- app_assoc, <- list_fmap_compose.
    replace (Player.Id ∘ defaulted dflt <$> Roster.Players r)
      with (Player.Id <$> Roster.Players r); [done|].
    apply list_fmap_ext. intros i p _. symmetry. apply defaulted_Id.
Qed.

(** The map after the loops, key by key: an id is bound to the effective
    assignment of the last player that carries it, and the empty id is never
    bound by the loops. *)
Lemma foldl_recordPlayer_lookup (dflt : string) (l : list Player.t)
    (m : gmap string string) (k : string) :
  foldl (recordPlayer dflt) m l !! k
  = if decide (k = "") then m !! k
    else match last (filter (fun p => Player.Id p = k) l) with
         | Some p => Some (effectiveAssignment dflt p)
         | None => m !! k
         end.
Proof.
  induction l as [|p l IH] using rev_ind.
  - simpl. by case_decide.
  - rewrite foldl_app, filter_app. cbn [foldl]. unfold recordPlayer at 1.
    destruct (decide (Player.Id p = "")) as [Hp|Hp].
    + rewrite IH. case_decide; [done|].
      rewrite filter_cons_False, filter_nil, app_nil_r by congruence. done.
    + destruct (decide (Player.Id p = k)) as [<-|Hk].
      * rewrite lookup_insert_eq, decide_False by done.
        rewrite filter_cons_True, filter_nil by done. by rewrite last_snoc.
      * rewrite lookup_insert_ne, IH by done.
        rewrite filter_cons_False, filter_nil, app_nil_r by done. done.
Qed.

Lemma foldl_recordPlayer_filter (dflt : string) (l : list Player.t)
    (m : gmap string string) :
  foldl (recordPlayer dflt) m l
  = foldl (fun m p => <[Player.Id p := effectiveAssignment dflt p]> m) m
          (filter (fun p => Player.Id p ≠ "") l).
Proof.
  revert m. induction l as [|p l IH]; intros m; [done|].
  cbn [foldl]. rewrite IH. unfold recordPlayer.
  destruct (decide (Player.Id p = "")) as [Hp|Hp].
  - rewrite filter_cons_False by tauto. done.
  - rewrite filter_cons_True by done. done.
Qed.

Lemma foldl_carried_defaulted (dflt : string) (l : list Player.t)
    (m : gmap string string) :
  foldl (fun m p => <[Player.Id p := Player.Assignment p]> m) m
        (filter (fun p => Player.Id p ≠ "") (defaulted dflt <$> l))
  = foldl (recordPlayer dflt) m l.
Proof.
  revert m. induction l as [|p l IH]; intros m; [done|].
  cbn [fmap list_fmap foldl]. unfold recordPlayer at 2.
  destruct (decide (Player.Id p = "")) as [Hp|Hp].
  - rewrite filter_cons_False by (rewrite defaulted_Id; tauto). apply IH.
  - rewrite filter_cons_True by (by rewrite defaulted_Id). cbn [foldl].
    rewrite defaulted_Id, defaulted_Assignment by done. apply IH.
Qed.

Lemma allPlayers_defaulted (dflt : string) (rs : list Roster.t) :
  allPlayers (defaultedRoster dflt <$> rs) = defaulted dflt <$> allPlayers rs.
Proof.
  unfold allPlayers. induction rs as [|r rs IH]; [done|].
  cbn [fmap list_fmap concat] in *. rewrite fmap_app. f_equal. apply IH.
Qed.

(** A list and its image, related element by element. *)
Lemma Forall2_fmap_diag {A : Type} (R : A -> A -> Prop) (f : A -> A) (l : list A) :
  (forall x, R x (f x)) -> Forall2 R l (f <$> l).
Proof. intros HR. induction l as [|x l IH]; constructor; auto. Qed.

(** The size of a map built by inserting cannot exceed the number of
    insertions. *)
Lemma foldl_recordPlayer_size (dflt : string) (l : list Player.t)
    (m : gmap string string) :
  (size (foldl (recordPlayer dflt) m l) <= size m + length l)%nat.
Proof.
  revert m. induction l as [|p l IH]; intros m; simpl; [lia|].
  etrans; [apply IH|]. unfold recordPlayer. case_decide; [lia|].
  destruct (m !! Player.Id p) as [v|] eqn:Hm.
  - rewrite map_size_insert_Some by eauto. lia.
  - rewrite map_size_insert_None by done. lia.
Qed.

(** ** The handlers in closed form *)

(** What one call of [CreateAssignments] returns and logs. *)
Lemma CreateAssignments_run (w : World) (a : Assignments.t) :
  run (CreateAssignments w a)
  = let dflt := Assignments.Assignment a in
    let rs := Assignments.Rosters a in
    let players := foldl (recordPlayer dflt) ∅ (allPlayers rs) in
    let a' := Assignments.setRosters (defaultedRoster dflt <$> rs) a in
    let calls := [EvUpdateMultiFields players "assignment";
                  EvMove (allPlayerIds rs) "proposed" "deindexed"] in
    match redisHelpers_UpdateMultiFields w players "assignment" with
    | Some e =>
      ((a', ({| Result.Success := false; Result.Error := e |}, Some e)),
       calls ++ [EvStat BeGrpcErrors 1;
                 EvStat BeAssignmentFailures (Z.of_nat (size players))])
    | None =>
      ((a', ({| Result.Success := true; Result.Error := "" |}, None)),
       calls ++ [EvStat BeGrpcRequests 1;
                 EvStat BeAssignments (Z.of_nat (size players))])
    end.
Proof.
  unfold CreateAssignments. rewrite assignRosters_eq. cbn zeta.
  unfold run, UpdateMultiFields, Move, stats_Record, call, mbind, M_bind, mret, M_ret.
  simpl. by destruct (redisHelpers_UpdateMultiFields w _ _).
Qed.

(** What one call of [DeleteAssignments] returns and logs. *)
Lemma DeleteAssignments_run (w : World) (r : Roster.t) :
  run (DeleteAssignments w r)
  = let ids := Player.Id <$> Roster.Players r in
    match redisHelpers_DeleteMultiFields w ids "assignment" with
    | Some e =>
      (({| Result.Success := false; Result.Error := e |}, Some e),
       [EvDeleteMultiFields ids "assignment"; EvStat BeGrpcErrors 1;
        EvStat BeAssignmentDeletionFailures (Z.of_nat (length (Roster.Players r)))])
    | None =>
      (({| Result.Success := true; Result.Error := "" |}, None),
       [EvDeleteMultiFields ids "assignment"; EvStat BeGrpcRequests 1;
        EvStat BeAssignmentDeletions (Z.of_nat (length (Roster.Players r)))])
    end.
Proof.
  unfold DeleteAssignments. rewrite getPlayerIdsFromRoster_map. cbn zeta.
  unfold run, DeleteMultiFields, stats_Record, call, mbind, M_bind, mret, M_ret.
  simpl. rewrite length_fmap. by destruct (redisHelpers_DeleteMultiFields w _ _).
Qed.

(** The compatibility steps touch the pools and the rosters only. *)
Lemma fromProperties_Properties (w : World) (profile : MatchObject.t) :
  MatchObject.Properties (fromProperties w profile) = MatchObject.Properties profile.
Proof.
  unfold fromProperties, rostersFromProperties, poolsFromProperties.
  repeat (case_match; simpl; try done).
Qed.

Lemma fromProperties_Id (w : World) (profile : MatchObject.t) :
  MatchObject.Id (fromProperties w profile) = MatchObject.Id profile.
Proof.
  unfold fromProperties, rostersFromProperties, poolsFromProperties.
  repeat (case_match; simpl; try done).
Qed.

(** What one call of [CreateMatch] returns and logs. *)
Lemma CreateMatch_run (w : World) (profile : MatchObject.t) :
  run (CreateMatch w profile)
  = let key := requestKey (xid_New w) profile in
    let pb := fromProperties w profile in
    let write := EvMarshalToRedis pb (Viper.GetInt (cfg w) "redis.expirations.matchobject") in
    let enqueue := EvUpdate (Viper.GetString (cfg w) "queues.profiles.name") key in
    let watch := EvWatcher (MatchObject.withId key) in
    match writeOutcome w profile with
    | Some e => ((MatchObject.empty, Some e), [write; EvStat BeGrpcErrors 1])
    | None =>
      match enqueueOutcome w profile with
      | Some e => ((MatchObject.empty, Some e), [write; enqueue; EvStat BeGrpcErrors 1])
      | None =>
        match watchOutcome w profile with
        | None =>
          ((closedMO w,
            Some ("Error retrieving matchmaking results from state storage: "
                  +:+ MatchObject.Error (closedMO w))),
           [write; enqueue; watch; EvStat BeGrpcRequests 1])
        | Some newMO =>
          let newMO :=
            if gjson_Valid w (MatchObject.Properties profile) then newMO
            else MatchObject.setError "retreived properties json was malformed" newMO in
          if decide (MatchObject.Error newMO = "")
          then ((newMO, None), [write; enqueue; watch; EvStat BeGrpcRequests 1])
          else ((newMO, Some (MatchObject.Error newMO)),
                [write; enqueue; watch; EvStat BeGrpcErrors 1])
        end
      end
    end.
Proof.
  unfold CreateMatch, writeOutcome, enqueueOutcome, watchOutcome. cbn zeta.
  fold (fromProperties w profile). rewrite fromProperties_Properties.
  unfold run, MarshalToRedis, Update, Watcher, stats_Record, call,
    mbind, M_bind, mret, M_ret, errors_New.
  simpl. repeat (case_match; simpl; try done).
Qed.

(** ** Strings *)

Lemma string_app_nil_r (s : string) : s +:+ "" = s.
Proof.
  induction s as [|c s IH]; [done|].
  unfold String.append; fold String.append. by rewrite IH.
Qed.

Lemma string_app_assoc (s1 s2 s3 : string) :
  (s1 +:+ s2) +:+ s3 = s1 +:+ s2 +:+ s3.
Proof.
  induction s1 as [|c s1 IH]; [done|].
  unfold String.append; fold String.append. by rewrite IH.
Qed.

Lemma string_length_app (s1 s2 : string) :
  String.length (s1 +:+ s2) = (String.length s1 + String.length s2)%nat.
Proof.
  induction s1 as [|c s1 IH]; [done|].
  unfold String.append; fold String.append. simpl. by rewrite IH.
Qed.

Lemma contains_suffix (pre sub : string) : contains (pre +:+ sub) sub.
Proof. exists pre, "". by rewrite string_app_nil_r. Qed.

Lemma contains_app_l (pre s sub : string) :
  contains s sub -> contains (pre +:+ s) sub.
Proof.
  intros (p & q & ->). exists (pre +:+ p), q. by rewrite string_app_assoc.
Qed.

(** The request key is longer than the profile id it ends with. *)
Lemma requestKey_ne_Id (moID : string) (profile : MatchObject.t) :
  requestKey moID profile ≠ MatchObject.Id profile.
Proof.
  unfold requestKey. intros Heq. apply (f_equal String.length) in Heq.
  rewrite !string_length_app in Heq. simpl in Heq. lia.
Qed.

(** ** CreateMatch: errors and results *)

Lemma closedMO_Error (w : World) :
  MatchObject.Error (closedMO w)
  = match ctx_Err w with
    | Some e => "channel closed: " +:+ e
    | None => "channel closed: backoff deadline exceeded"
    end.
Proof. unfold closedMO. by destruct (ctx_Err w). Qed.

Lemma closedMO_Error_nonempty (w : World) : MatchObject.Error (closedMO w) ≠ "".
Proof. rewrite closedMO_Error. by destruct (ctx_Err w). Qed.

(** C1, as the spec states it, fails when the store refuses the profile:
    the call returns the error with an empty match object, whose [Error]
    field is empty. *)
Lemma CreateMatch_write_failure_unpaired :
  let w := demoWorld (Some "EOF") None None None None None in
  let profile := demoProfile "{}" in
  MatchObject.Id profile ≠ ""
  ∧ result (CreateMatch w profile) = (MatchObject.empty, Some "EOF")
  ∧ ¬ errorPaired (result (CreateMatch w profile)).
Proof.
  cbn zeta. split; [done|]. split; [reflexivity|].
  intros [[Herr _]|[_ Hfield]]; [done|]. by apply Hfield.
Qed.

(** C1 (amended): for every profile, CreateMatch returns either
    [(result, nil)] with an empty [result.Error], or [(result, err)] with
    [err] not nil; in the latter case [result.Error] is not empty, except
    when the write of the profile or the enqueue of the request key failed:
    then the result is the empty match object (with an empty [Error]) and
    [err] the error of the store. *)
Theorem CreateMatch_error_pairing (w : World) (profile : MatchObject.t) :
  let r := result (CreateMatch w profile) in
  match writeOutcome w profile, enqueueOutcome w profile with
  | Some e, _ | None, Some e => r = (MatchObject.empty, Some e)
  | None, None => errorPaired r
  end.
Proof.
  unfold result. rewrite CreateMatch_run. cbn zeta.
  destruct (writeOutcome w profile) as [e|]; [done|].
  destruct (enqueueOutcome w profile) as [e|]; [done|].
  destruct (watchOutcome w profile) as [newMO|]; simpl.
  - case_decide as Herr; simpl; [left|right]; done.
  - right. split; [done|]. apply closedMO_Error_nonempty.
Qed.

(** C2: when the watch delivers a value, the check of well-formedness is
    made on the properties of the profile that was passed in (the
    compatibility steps leave them as they are), not on those of the record
    delivered: if they are not valid JSON, the record comes back with its
    [Error] set to the malformed-properties message, together with an error,
    whatever the record holds. *)
Theorem CreateMatch_validates_input_properties
    (w : World) (profile newMO : MatchObject.t) :
  writeOutcome w profile = None ->
  enqueueOutcome w profile = None ->
  watchOutcome w profile = Some newMO ->
  gjson_Valid w (MatchObject.Properties (fromProperties w profile)) = false ->
  MatchObject.Properties (fromProperties w profile) = MatchObject.Properties profile
  ∧ result (CreateMatch w profile)
    = (MatchObject.setError "retreived properties json was malformed" newMO,
       Some "retreived properties json was malformed").
Proof.
  intros Hw Hq Hrecv Hvalid. rewrite fromProperties_Properties in Hvalid.
  split; [apply fromProperties_Properties|].
  unfold result. rewrite CreateMatch_run. cbn zeta.
  by rewrite Hw, Hq, Hrecv, Hvalid.
Qed.

(** The record a worker delivered is fine, properties included; the input
    is not, and the call fails on it. *)
Lemma CreateMatch_validates_input_properties_witness :
  let delivered := demoMatch "{}" "" in
  let w := demoWorld None None (Some delivered) None None None in
  let profile := demoProfile "{pools" in
  gjson_Valid w (MatchObject.Properties delivered) = true
  ∧ result (CreateMatch w profile)
    = (MatchObject.setError "retreived properties json was malformed" delivered,
       Some "retreived properties json was malformed").
Proof.
  cbn zeta. split; [reflexivity|].
  apply (CreateMatch_validates_input_properties
           (demoWorld None None (Some (demoMatch "{}" "")) None None None)
           (demoProfile "{pools") (demoMatch "{}" "")); reflexivity.
Defined.

(** C5: when the watch closes without a value, the [Error] of the result
    and the message of the error returned name the cause: the text of the
    context's error when the context is done, a backoff deadline exceeded
    otherwise; an error is returned in both cases. *)
Theorem CreateMatch_closed_channel (w : World) (profile : MatchObject.t) :
  writeOutcome w profile = None ->
  enqueueOutcome w profile = None ->
  watchOutcome w profile = None ->
  exists mo msg,
    result (CreateMatch w profile) = (mo, Some msg)
    ∧ msg = "Error retrieving matchmaking results from state storage: "
            +:+ MatchObject.Error mo
    ∧ match ctx_Err w with
      | Some e =>
        MatchObject.Error mo = "channel closed: " +:+ e
        ∧ contains (MatchObject.Error mo) e ∧ contains msg e
      | None =>
        MatchObject.Error mo = "channel closed: backoff deadline exceeded"
        ∧ contains (MatchObject.Error mo) "backoff deadline exceeded"
        ∧ contains msg "backoff deadline exceeded"
      end.
Proof.
  intros Hw Hq Hrecv. eexists _, _. unfold result.
  rewrite CreateMatch_run. cbn zeta. rewrite Hw, Hq, Hrecv. simpl.
  split; [done|]. split; [done|]. rewrite closedMO_Error.
  destruct (ctx_Err w) as [e|].
  - split; [done|]. split; [|apply contains_app_l]; apply contains_suffix.
  - split; [done|].
    split; [|apply contains_app_l];
      apply (contains_suffix "channel closed: " "backoff deadline exceeded").
Qed.

Lemma CreateMatch_closed_channel_witness :
  (exists mo msg,
     result (CreateMatch (demoWorld None None None (Some "context canceled") None None)
                         (demoProfile "{}")) = (mo, Some msg)
     ∧ contains msg "context canceled")
  ∧ (exists mo msg,
     result (CreateMatch (demoWorld None None None None None None)
                         (demoProfile "{}")) = (mo, Some msg)
     ∧ contains msg "backoff deadline exceeded").
Proof.
  split.
  - destruct (CreateMatch_closed_channel
                (demoWorld None None None (Some "context canceled") None None)
                (demoProfile "{}") eq_refl eq_refl eq_refl)
      as (mo & msg & Hres & _ & _ & _ & Hmsg).
    by exists mo, msg.
  - destruct (CreateMatch_closed_channel
                (demoWorld None None None None None None)
                (demoProfile "{}") eq_refl eq_refl eq_refl)
      as (mo & msg & Hres & _ & _ & _ & Hmsg).
    by exists mo, msg.
Defined.

(** C6: when the watch delivers a record and the properties passed in are
    valid, the record is returned as it is: with an error whose message is
    the record's [Error] when that field is not empty, with no error when
    it is. *)
Theorem CreateMatch_delivered (w : World) (profile newMO : MatchObject.t) :
  writeOutcome w profile = None ->
  enqueueOutcome w profile = None ->
  watchOutcome w profile = Some newMO ->
  gjson_Valid w (MatchObject.Properties profile) = true ->
  result (CreateMatch w profile)
  = (newMO, if decide (MatchObject.Error newMO = "") then None
            else Some (MatchObject.Error newMO)).
Proof.
  intros Hw Hq Hrecv Hvalid. unfold result. rewrite CreateMatch_run. cbn zeta.
  rewrite Hw, Hq, Hrecv, Hvalid. by case_decide.
Qed.

Lemma CreateMatch_delivered_witness :
  result (CreateMatch (demoWorld None None (Some (demoMatch "{}" "no players")) None None None)
                      (demoProfile "{}"))
  = (demoMatch "{}" "no players", Some "no players")
  ∧ result (CreateMatch (demoWorld None None (Some (demoMatch "{}" "")) None None None)
                        (demoProfile "{}"))
    = (demoMatch "{}" "", None).
Proof.
  split.
  - apply (CreateMatch_delivered
             (demoWorld None None (Some (demoMatch "{}" "no players")) None None None)
             (demoProfile "{}") (demoMatch "{}" "no players")); reflexivity.
  - apply (CreateMatch_delivered
             (demoWorld None None (Some (demoMatch "{}" "")) None None None)
             (demoProfile "{}") (demoMatch "{}" "")); reflexivity.
Defined.

(** ** CreateMatch: the calls to the store *)

(** The first call of [CreateMatch] is the write of the profile. *)
Lemma CreateMatch_first_call (w : World) (profile : MatchObject.t) :
  trace (CreateMatch w profile) !! 0%nat
  = Some (EvMarshalToRedis (fromProperties w profile)
            (Viper.GetInt (cfg w) "redis.expirations.matchobject")).
Proof.
  unfold trace. rewrite CreateMatch_run. cbn zeta.
  destruct (writeOutcome w profile) as [e|]; [done|].
  destruct (enqueueOutcome w profile) as [e|]; [done|].
  destruct (watchOutcome w profile) as [newMO|]; [|done].
  simpl. by case_decide.
Qed.

(** The write is handed the same message whatever identifier was generated:
    however the store derives the key of the record from what it is given,
    the key cannot hold the identifier. *)
Lemma CreateMatch_write_ignores_xid (w : World) (profile : MatchObject.t) (moID : string) :
  trace (CreateMatch (withXid moID w) profile) !! 0%nat
  = trace (CreateMatch w profile) !! 0%nat.
Proof. by rewrite !CreateMatch_first_call. Qed.

(** C7, as the spec states it, fails on the key of the write: the profile is
    written as it was passed, under its own id, while the request key is
    what is enqueued and watched. *)
Lemma CreateMatch_write_not_under_requestKey :
  let w := demoWorld None None (Some (demoMatch "{}" "")) None None None in
  let profile := demoProfile "{}" in
  ¬ orderedUnderRequestKey (requestKey (xid_New w) profile)
      (trace (CreateMatch w profile)).
Proof.
  cbn zeta. intros (pb & ttl & queue & pbw & Hcalls & Hkey & _).
  vm_compute in Hcalls. injection Hcalls as <- _ _ _. by vm_compute in Hkey.
Qed.

(** C7 (amended): within one call the calls to the store are strictly
    ordered: the write of the profile (under the id of the profile, not
    under the request key) comes before the enqueue of the request key,
    which comes before the watch on the request key; there is no enqueue
    after a failed write and no watch after a failed write or enqueue. *)
Theorem CreateMatch_store_order (w : World) (profile : MatchObject.t) :
  let key := requestKey (xid_New w) profile in
  let pb := fromProperties w profile in
  let write := EvMarshalToRedis pb (Viper.GetInt (cfg w) "redis.expirations.matchobject") in
  let enqueue := EvUpdate (Viper.GetString (cfg w) "queues.profiles.name") key in
  let watch := EvWatcher (MatchObject.withId key) in
  storeCalls (trace (CreateMatch w profile))
  = match writeOutcome w profile, enqueueOutcome w profile with
    | Some _, _ => [write]
    | None, Some _ => [write; enqueue]
    | None, None => [write; enqueue; watch]
    end
  ∧ redispb_key pb = MatchObject.Id profile
  ∧ redispb_key pb ≠ key
  ∧ redispb_key (MatchObject.withId key) = key.
Proof.
  cbn zeta. split; [|split; [|split]].
  - unfold trace. rewrite CreateMatch_run. cbn zeta.
    destruct (writeOutcome w profile) as [e|]; [done|].
    destruct (enqueueOutcome w profile) as [e|]; [done|].
    destruct (watchOutcome w profile) as [newMO|]; [|done].
    simpl. by case_decide.
  - apply fromProperties_Id.
  - unfold redispb_key. rewrite fromProperties_Id.
    intros Heq. by apply (requestKey_ne_Id (xid_New w) profile).
  - done.
Qed.

(** C8, as the spec states it, fails on the record written: its key is the
    id of the profile, without the unique identifier. *)
Lemma CreateMatch_record_key_is_profile_id :
  let w := demoWorld None None (Some (demoMatch "{}" "")) None None None in
  let profile := demoProfile "{}" in
  ¬ Forall (recordKeyIs (xid_New w +:+ "." +:+ MatchObject.Id profile))
      (trace (CreateMatch w profile)).
Proof.
  cbn zeta. intros Hall. apply Forall_cons_1 in Hall as [Hwrite _].
  by vm_compute in Hwrite.
Qed.

(** C8 (amended): the request key, which is the item put on the queue and
    the key of the watch, is exactly the identifier just generated, a dot,
    and the [Id] of the profile passed in; the record written is the
    profile, under that [Id] alone. *)
Theorem CreateMatch_request_key (w : World) (profile : MatchObject.t) :
  let key := xid_New w +:+ "." +:+ MatchObject.Id profile in
  Forall (keyedByRequest (MatchObject.Id profile) key) (trace (CreateMatch w profile))
  ∧ (exists pb ttl, trace (CreateMatch w profile) !! 0%nat = Some (EvMarshalToRedis pb ttl))
  ∧ match writeOutcome w profile, enqueueOutcome w profile with
    | Some _, _ => True
    | None, Some _ =>
      exists queue, trace (CreateMatch w profile) !! 1%nat = Some (EvUpdate queue key)
    | None, None =>
      (exists queue, trace (CreateMatch w profile) !! 1%nat = Some (EvUpdate queue key))
      ∧ trace (CreateMatch w profile) !! 2%nat = Some (EvWatcher (MatchObject.withId key))
    end.
Proof.
  cbn zeta. unfold trace. rewrite CreateMatch_run. cbn zeta.
  pose proof (fromProperties_Id w profile) as Hid.
  destruct (writeOutcome w profile) as [e|].
  { split; [repeat constructor; done|]. split; [by eexists _, _|done]. }
  destruct (enqueueOutcome w profile) as [e|].
  { split; [repeat constructor; done|]. split; [by eexists _, _|by eexists]. }
  assert (forall stat : Event,
    keyedByRequest (MatchObject.Id profile) (requestKey (xid_New w) profile) stat ->
    let tr := [EvMarshalToRedis (fromProperties w profile)
                 (Viper.GetInt (cfg w) "redis.expirations.matchobject");
               EvUpdate (Viper.GetString (cfg w) "queues.profiles.name")
                 (requestKey (xid_New w) profile);
               EvWatcher (MatchObject.withId (requestKey (xid_New w) profile));
               stat] in
    Forall (keyedByRequest (MatchObject.Id profile) (requestKey (xid_New w) profile)) tr
    ∧ (exists pb ttl, tr !! 0%nat = Some (EvMarshalToRedis pb ttl))
    ∧ (exists queue, tr !! 1%nat = Some (EvUpdate queue (requestKey (xid_New w) profile)))
    ∧ tr !! 2%nat = Some (EvWatcher (MatchObject.withId (requestKey (xid_New w) profile))))
    as Hsteps.
  { intros stat Hstat. cbn zeta. split; [repeat constructor; done|].
    split; [by eexists _, _|]. split; [by eexists|done]. }
  destruct (watchOutcome w profile) as [newMO|]; simpl.
  - case_decide; simpl; by apply Hsteps.
  - by apply Hsteps.
Qed.

(** ** CreateAssignments and DeleteAssignments *)

(** C3: the move of every collected id from the proposed list to the
    deindexed list is made on every call, right after the batch write and
    whatever the outcome of the write; what the move answers changes neither
    the result nor the error returned. *)
Theorem CreateAssignments_move_unconditional (w : World) (a : Assignments.t) :
  (exists players tail,
     trace (CreateAssignments w a)
     = EvUpdateMultiFields players "assignment"
       :: EvMove (allPlayerIds (Assignments.Rosters a)) "proposed" "deindexed"
       :: tail
     ∧ storeCalls tail = [])
  ∧ (forall move,
       result (CreateAssignments (withMove move w) a)
       = result (CreateAssignments w a)).
Proof.
  split.
  - unfold trace. rewrite CreateAssignments_run. cbn zeta.
    destruct (redisHelpers_UpdateMultiFields w _ _); by eexists _, _.
  - intros move. unfold result. rewrite !CreateAssignments_run. cbn zeta.
    cbn [redisHelpers_UpdateMultiFields withMove].
    by destruct (redisHelpers_UpdateMultiFields w _ _).
Qed.

(** The batch write fails, the move fails too: the move was made, and the
    call answers with the failure of the write. *)
Lemma CreateAssignments_move_after_failed_write :
  let w := demoWorld None None None None (Some "EOF") (Some "ERR no such key") in
  trace (CreateAssignments w demoAssignments) !! 1%nat
  = Some (EvMove ["p1"; "p2"] "proposed" "deindexed")
  ∧ (result (CreateAssignments w demoAssignments)).2
    = ({| Result.Success := false; Result.Error := "EOF" |}, Some "EOF").
Proof. cbn zeta. split; reflexivity. Qed.

(** C4: the map of the batch write binds every player with a non-empty id,
    across all rosters, to its own assignment when it has one and to the
    default otherwise (the last player wins when an id comes twice); the
    count recorded with the assignment measure on success is the size of
    that map. *)
Theorem CreateAssignments_write_map (w : World) (a : Assignments.t) :
  let dflt := Assignments.Assignment a in
  let players := writeMapSpec a in
  trace (CreateAssignments w a) !! 0%nat
  = Some (EvUpdateMultiFields players "assignment")
  ∧ (forall k : string,
       players !! k
       = if decide (k = "") then None
         else effectiveAssignment dflt
              <$> last (filter (fun p => Player.Id p = k)
                               (allPlayers (Assignments.Rosters a))))
  ∧ last (trace (CreateAssignments w a))
    = Some (EvStat (match redisHelpers_UpdateMultiFields w players "assignment" with
                    | None => BeAssignments
                    | Some _ => BeAssignmentFailures
                    end)
                   (Z.of_nat (size players))).
Proof.
  cbn zeta. unfold writeMapSpec. rewrite <- foldl_recordPlayer_filter.
  split; [|split].
  - unfold trace. rewrite CreateAssignments_run. cbn zeta.
    by destruct (redisHelpers_UpdateMultiFields w _ _).
  - intros k. rewrite foldl_recordPlayer_lookup, lookup_empty.
    case_decide; [done|]. by destruct (last _).
  - unfold trace. rewrite CreateAssignments_run. cbn zeta.
    by destruct (redisHelpers_UpdateMultiFields w _ _).
Qed.

(** The example of the spec: players p1 (no assignment) and p2 (srvB),
    default srvA. *)
Lemma CreateAssignments_write_map_witness :
  let w := demoWorld None None None None None None in
  trace (CreateAssignments w demoAssignments) !! 0%nat
  = Some (EvUpdateMultiFields {[ "p1" := "srvA"; "p2" := "srvB" ]} "assignment")
  ∧ last (trace (CreateAssignments w demoAssignments))
    = Some (EvStat BeAssignments 2).
Proof.
  cbn zeta.
  destruct (CreateAssignments_write_map
              (demoWorld None None None None None None) demoAssignments)
    as (Hfirst & _ & Hlast).
  split; [exact Hfirst|exact Hlast].
Defined.

(** C9: the ids handed to the move of [CreateAssignments] and the ids
    cleared by [DeleteAssignments] (whose number the deletion measures
    record) are the ids of all players, those with an empty id included:
    [getPlayerIdsFromRoster] keeps every id; only the map of the batch write
    leaves the empty id out. *)
Theorem player_ids_unfiltered (w : World) (a : Assignments.t) (r : Roster.t) :
  getPlayerIdsFromRoster r = Player.Id <$> Roster.Players r
  ∧ trace (CreateAssignments w a) !! 1%nat
    = Some (EvMove (Player.Id <$> allPlayers (Assignments.Rosters a))
                   "proposed" "deindexed")
  ∧ (exists players,
       trace (CreateAssignments w a) !! 0%nat
       = Some (EvUpdateMultiFields players "assignment")
       ∧ players !! "" = None)
  ∧ (exists outcome count,
       trace (DeleteAssignments w r)
       = [EvDeleteMultiFields (Player.Id <$> Roster.Players r) "assignment";
          EvStat outcome 1;
          EvStat count (Z.of_nat (length (Roster.Players r)))]
       ∧ (count = BeAssignmentDeletions ∨ count = BeAssignmentDeletionFailures)).
Proof.
  split; [apply getPlayerIdsFromRoster_map|]. split; [|split].
  - unfold trace. rewrite CreateAssignments_run. cbn zeta.
    by destruct (redisHelpers_UpdateMultiFields w _ _).
  - eexists. unfold trace. rewrite CreateAssignments_run. cbn zeta. split.
    + by destruct (redisHelpers_UpdateMultiFields w _ _).
    + rewrite foldl_recordPlayer_lookup. by rewrite decide_True.
  - unfold trace. rewrite DeleteAssignments_run. cbn zeta.
    destruct (redisHelpers_DeleteMultiFields w _ _); eexists _, _; eauto.
Qed.

(** A player without an id is moved and cleared with the others, and
    counted; it is not in the map of the batch write. *)
Lemma player_ids_unfiltered_example :
  let w := demoWorld None None None None None None in
  let a := {| Assignments.Rosters := [demoRosterWithAnonymous];
              Assignments.Assignment := "srvA" |} in
  getPlayerIdsFromRoster demoRosterWithAnonymous = ["p1"; ""]
  ∧ trace (CreateAssignments w a)
    = [EvUpdateMultiFields {[ "p1" := "srvA" ]} "assignment";
       EvMove ["p1"; ""] "proposed" "deindexed";
       EvStat BeGrpcRequests 1; EvStat BeAssignments 1]
  ∧ trace (DeleteAssignments w demoRosterWithAnonymous)
    = [EvDeleteMultiFields ["p1"; ""] "assignment";
       EvStat BeGrpcRequests 1; EvStat BeAssignmentDeletions 2].
Proof. cbn zeta. split; [|split]; reflexivity. Qed.

(** C10: [CreateAssignments] updates the structure it is given: a player
    with an id and no assignment carries the default assignment from before
    the batch write on (the map written is the one read off the updated
    structure); every other field, and every other player, is as it was. *)
Theorem CreateAssignments_defaults_in_place (w : World) (a : Assignments.t) :
  let dflt := Assignments.Assignment a in
  let a' := (result (CreateAssignments w a)).1 in
  Assignments.Assignment a' = dflt
  ∧ Forall2 (fun r r' =>
       Roster.Name r' = Roster.Name r
       ∧ Forall2 (fun p p' =>
            Player.Id p' = Player.Id p
            ∧ Player.Rest p' = Player.Rest p
            ∧ Player.Assignment p'
              = if decide (Player.Id p ≠ "" ∧ Player.Assignment p = "")
                then dflt else Player.Assignment p)
           (Roster.Players r) (Roster.Players r'))
      (Assignments.Rosters a) (Assignments.Rosters a')
  ∧ trace (CreateAssignments w a) !! 0%nat
    = Some (EvUpdateMultiFields (carriedAssignments a') "assignment").
Proof.
  cbn zeta. unfold result, trace. rewrite CreateAssignments_run. cbn zeta.
  assert (Forall2 (fun r r' =>
       Roster.Name r' = Roster.Name r
       ∧ Forall2 (fun p p' =>
            Player.Id p' = Player.Id p
            ∧ Player.Rest p' = Player.Rest p
            ∧ Player.Assignment p'
              = if decide (Player.Id p ≠ "" ∧ Player.Assignment p = "")
                then Assignments.Assignment a else Player.Assignment p)
           (Roster.Players r) (Roster.Players r'))
      (Assignments.Rosters a)
      (defaultedRoster (Assignments.Assignment a) <$> Assignments.Rosters a))
    as Hframe.
  { apply Forall2_fmap_diag. intros r. split; [done|].
    cbn [defaultedRoster Roster.setPlayers Roster.Players].
    apply Forall2_fmap_diag. intros p. unfold defaulted. by case_decide. }
  assert (carriedAssignments
            (Assignments.setRosters
               (defaultedRoster (Assignments.Assignment a) <$> Assignments.Rosters a) a)
          = foldl (recordPlayer (Assignments.Assignment a)) ∅
                  (allPlayers (Assignments.Rosters a))) as Hmap.
  { unfold carriedAssignments. cbn [Assignments.setRosters Assignments.Rosters].
    by rewrite allPlayers_defaulted, foldl_carried_defaulted. }
  destruct (redisHelpers_UpdateMultiFields w _ _) as [e|]; cbn [fst snd];
    by rewrite Hmap.
Qed.

Lemma CreateAssignments_defaults_in_place_example :
  (result (CreateAssignments (demoWorld None None None None None None)
                             demoAssignments)).1
  = {| Assignments.Rosters :=
         [ {| Roster.Name := "red";
              Roster.Players :=
                [ {| Player.Id := "p1"; Player.Assignment := "srvA"; Player.Rest := "" |};
                  {| Player.Id := "p2"; Player.Assignment := "srvB"; Player.Rest := "" |} ] |} ];
       Assignments.Assignment := "srvA" |}.
Proof. reflexivity. Qed.

(** * Further properties of the handlers *)

(** ** CreateMatch *)


(** X2: CreateMatch returns no error only after the whole rendezvous: the
    profile was written, the request key enqueued, the properties passed in
    are valid JSON, and the watch delivered a record with an empty [Error];
    what is returned is that record, untouched. *)
Theorem CreateMatch_success (w : World) (profile : MatchObject.t) :
  (result (CreateMatch w profile)).2 = None ->
  writeOutcome w profile = None
  ∧ enqueueOutcome w profile = None
  ∧ gjson_Valid w (MatchObject.Properties profile) = true
  ∧ watchOutcome w profile = Some (result (CreateMatch w profile)).1
  ∧ MatchObject.Error (result (CreateMatch w profile)).1 = "".
Proof.
  unfold result. rewrite CreateMatch_run. cbn zeta.
  destruct (writeOutcome w profile) as [e|]; [done|].
  destruct (enqueueOutcome w profile) as [e|]; [done|].
  destruct (watchOutcome w profile) as [newMO|]; [|done].
  destruct (gjson_Valid w (MatchObject.Properties profile)); simpl.
  - case_decide; [done|]. done.
  - done.
Qed.

Lemma CreateMatch_success_witness :
  let w := demoWorld None None (Some (demoMatch "{}" "")) None None None in
  watchOutcome w (demoProfile "{}")
  = Some (result (CreateMatch w (demoProfile "{}"))).1
  ∧ MatchObject.Error (result (CreateMatch w (demoProfile "{}"))).1 = "".
Proof.
  cbn zeta.
  destruct (CreateMatch_success
              (demoWorld None None (Some (demoMatch "{}" "")) None None None)
              (demoProfile "{}") eq_refl)
    as (_ & _ & _ & Hwatch & Herr).
  by split.
Defined.

(** The first compatibility step: what it leaves and where new pools come
    from. *)
Lemma poolsFromProperties_spec (w : World) (profile : MatchObject.t) :
  MatchObject.Properties (poolsFromProperties w profile) = MatchObject.Properties profile
  ∧ MatchObject.Error (poolsFromProperties w profile) = MatchObject.Error profile
  ∧ MatchObject.Rosters (poolsFromProperties w profile) = MatchObject.Rosters profile
  ∧ match MatchObject.Pools profile with
    | Some ps => MatchObject.Pools (poolsFromProperties w profile) = Some ps
    | None =>
      MatchObject.Pools (poolsFromProperties w profile) = None
      ∨ (Viper.IsSet (cfg w) "jsonkeys.pools" = true
         ∧ exists v ppools,
             gjson_Get w (MatchObject.Properties profile)
               (Viper.GetString (cfg w) "jsonkeys.pools") = Some v
             ∧ jsonpb_UnmarshalString w
                 ("{" +:+ dquote +:+ "pools" +:+ dquote +:+ ": " +:+ v +:+ "}")
               = Some ppools
             ∧ MatchObject.Pools (poolsFromProperties w profile)
               = MatchObject.Pools ppools)
    end.
Proof.
  unfold poolsFromProperties.
  destruct (MatchObject.Pools profile) as [ps|] eqn:Hpools; [by rewrite Hpools|].
  destruct (Viper.IsSet (cfg w) "jsonkeys.pools"); [|rewrite Hpools; auto].
  destruct (gjson_Get w _ _) as [v|] eqn:Hget; [|rewrite Hpools; auto].
  destruct (jsonpb_UnmarshalString w _) as [ppools|] eqn:Hjson;
    [|rewrite Hpools; auto].
  simpl. repeat split. right. split; [done|]. by exists v, ppools.
Qed.

Lemma rostersFromProperties_spec (w : World) (profile : MatchObject.t) :
  MatchObject.Error (rostersFromProperties w profile) = MatchObject.Error profile
  ∧ MatchObject.Pools (rostersFromProperties w profile) = MatchObject.Pools profile
  ∧ match MatchObject.Rosters profile with
    | Some rs => MatchObject.Rosters (rostersFromProperties w profile) = Some rs
    | None =>
      MatchObject.Rosters (rostersFromProperties w profile) = None
      ∨ (Viper.IsSet (cfg w) "jsonkeys.rosters" = true
         ∧ exists v prosters,
             gjson_Get w (MatchObject.Properties profile)
               (Viper.GetString (cfg w) "jsonkeys.rosters") = Some v
             ∧ jsonpb_UnmarshalString w
                 ("{" +:+ dquote +:+ "rosters" +:+ dquote +:+ ": " +:+ v +:+ "}")
               = Some prosters
             ∧ MatchObject.Rosters (rostersFromProperties w profile)
               = MatchObject.Rosters prosters)
    end.
Proof.
  unfold rostersFromProperties.
  destruct (MatchObject.Rosters profile) as [rs|] eqn:Hrosters; [by rewrite Hrosters|].
  destruct (Viper.IsSet (cfg w) "jsonkeys.rosters"); [|rewrite Hrosters; auto].
  destruct (gjson_Get w _ _) as [v|] eqn:Hget; [|rewrite Hrosters; auto].
  destruct (jsonpb_UnmarshalString w _) as [prosters|] eqn:Hjson;
    [|rewrite Hrosters; auto].
  simpl. repeat split. right. split; [done|]. by exists v, prosters.
Qed.

(** X3: the compatibility steps of CreateMatch change nothing but the pools
    and the rosters of the profile, and those only when the caller passed
    none: pools and rosters that were passed are written as they are.
    Pools that appear come from the properties: they are what jsonpb reads
    from the JSON found under the configured key (and likewise the
    rosters, read from the same properties). *)
Theorem fromProperties_frame (w : World) (profile : MatchObject.t) :
  let written := fromProperties w profile in
  MatchObject.Id written = MatchObject.Id profile
  ∧ MatchObject.Properties written = MatchObject.Properties profile
  ∧ MatchObject.Error written = MatchObject.Error profile
  ∧ match MatchObject.Pools profile with
    | Some ps => MatchObject.Pools written = Some ps
    | None =>
      MatchObject.Pools written = None
      ∨ (Viper.IsSet (cfg w) "jsonkeys.pools" = true
         ∧ exists v ppools,
             gjson_Get w (MatchObject.Properties profile)
               (Viper.GetString (cfg w) "jsonkeys.pools") = Some v
             ∧ jsonpb_UnmarshalString w
                 ("{" +:+ dquote +:+ "pools" +:+ dquote +:+ ": " +:+ v +:+ "}")
               = Some ppools
             ∧ MatchObject.Pools written = MatchObject.Pools ppools)
    end
  ∧ match MatchObject.Rosters profile with
    | Some rs => MatchObject.Rosters written = Some rs
    | None =>
      MatchObject.Rosters written = None
      ∨ (Viper.IsSet (cfg w) "jsonkeys.rosters" = true
         ∧ exists v prosters,
             gjson_Get w (MatchObject.Properties profile)
               (Viper.GetString (cfg w) "jsonkeys.rosters") = Some v
             ∧ jsonpb_UnmarshalString w
                 ("{" +:+ dquote +:+ "rosters" +:+ dquote +:+ ": " +:+ v +:+ "}")
               = Some prosters
             ∧ MatchObject.Rosters written = MatchObject.Rosters prosters)
    end.
Proof.
  cbn zeta. split; [apply fromProperties_Id|].
  split; [apply fromProperties_Properties|].
  unfold fromProperties.
  destruct (poolsFromProperties_spec w profile) as (Hprops & Herr & Hrosters & Hpools).
  destruct (rostersFromProperties_spec w (poolsFromProperties w profile))
    as (Herr' & Hpools' & Hrosters').
  rewrite Herr', Hpools', Herr. split; [done|]. split; [exact Hpools|].
  rewrite Hrosters, Hprops in Hrosters'. exact Hrosters'.
Qed.

(** Appending to strings of the same length. *)
Lemma string_app_inj_length (s1 s2 t1 t2 : string) :
  String.length s1 = String.length s2 ->
  s1 +:+ t1 = s2 +:+ t2 -> s1 = s2 ∧ t1 = t2.
Proof.
  revert s2. induction s1 as [|c s1 IH]; intros [|c2 s2] Hlen Heq;
    simpl in Hlen; try done.
  unfold String.append in Heq; fold String.append in Heq.
  injection Heq as -> Heq. destruct (IH s2) as [-> ->]; [lia|done|done].
Qed.

(** X4: request keys do not collide when the identifiers generated have the
    same length (those of xid are twenty characters long): two calls with
    the same request key had the same identifier and the same profile id. *)
Theorem requestKey_inj (moID1 moID2 : string) (profile1 profile2 : MatchObject.t) :
  String.length moID1 = String.length moID2 ->
  requestKey moID1 profile1 = requestKey moID2 profile2 ->
  moID1 = moID2 ∧ MatchObject.Id profile1 = MatchObject.Id profile2.
Proof.
  unfold requestKey. intros Hlen Heq.
  destruct (string_app_inj_length _ _ _ _ Hlen Heq) as [-> Hrest].
  split; [done|].
  by destruct (string_app_inj_length "." "." _ _ eq_refl Hrest).
Qed.

Lemma requestKey_inj_witness :
  String.length "9m4e2mr0ui3e8a215n4g" = String.length "9m4e2mr0ui3e8a215n50"
  ∧ requestKey "9m4e2mr0ui3e8a215n4g" (demoProfile "{}")
    ≠ requestKey "9m4e2mr0ui3e8a215n50" (demoProfile "{}").
Proof.
  split; [reflexivity|]. intros Heq.
  by destruct (requestKey_inj "9m4e2mr0ui3e8a215n4g" "9m4e2mr0ui3e8a215n50"
                 (demoProfile "{}") (demoProfile "{}") eq_refl Heq) as [? _].
Defined.

(** Without the condition on the lengths two different calls can share a
    request key. *)
Lemma requestKey_collision :
  requestKey "a" (MatchObject.withId "b.c") = requestKey "a.b" (MatchObject.withId "c").
Proof. reflexivity. Qed.

(** ** CreateAssignments, DeleteAssignments and DeleteMatch *)

(** The ids bound by the loops: those that are not empty. *)
Lemma dom_foldl_recordPlayer (dflt : string) (l : list Player.t)
    (m : gmap string string) :
  dom (foldl (recordPlayer dflt) m l)
  = dom m ∪ list_to_set (filter (fun k => k ≠ "") (Player.Id <$> l)).
Proof.
  revert m. induction l as [|p l IH]; intros m.
  - simpl. by rewrite (right_id_L ∅ (∪)).
  - cbn [foldl fmap list_fmap]. rewrite IH. unfold recordPlayer.
    destruct (decide (Player.Id p = "")) as [Hp|Hp].
    + rewrite filter_cons_False by tauto. done.
    + rewrite filter_cons_True by done. rewrite dom_insert_L.
      cbn [list_to_set foldr]. by rewrite (comm_L (∪) {[_]} (dom m)), <- (assoc_L (∪)).
Qed.

Lemma filter_nonempty_id (ids : list string) :
  "" ∉ ids -> filter (fun k => k ≠ "") ids = ids.
Proof.
  induction ids as [|k ids IH]; intros Hnot; [done|].
  apply not_elem_of_cons in Hnot as [Hk Hnot].
  rewrite filter_cons_True by congruence. f_equal. by apply IH.
Qed.

Lemma filter_Id_absent (k : string) (l : list Player.t) :
  k ∉ (Player.Id <$> l) -> filter (fun q => Player.Id q = k) l = [].
Proof.
  induction l as [|q l IH]; intros Hk; [done|].
  cbn [fmap list_fmap] in Hk. apply not_elem_of_cons in Hk as [Hq Hk].
  rewrite filter_cons_False by congruence. by apply IH.
Qed.

(** With distinct ids, the last player with the id of [p] is [p]. *)
Lemma last_filter_NoDup_Id (l : list Player.t) (p : Player.t) :
  NoDup (Player.Id <$> l) -> p ∈ l ->
  last (filter (fun q => Player.Id q = Player.Id p) l) = Some p.
Proof.
  induction l as [|q l IH]; intros Hnd Hin; [by apply elem_of_nil in Hin|].
  cbn [fmap list_fmap] in Hnd. apply NoDup_cons in Hnd as [Hq Hnd].
  apply elem_of_cons in Hin as [->|Hin].
  - rewrite filter_cons_True by done. by rewrite filter_Id_absent.
  - rewrite filter_cons_False; [by apply IH|].
    intros Heq. apply Hq. rewrite Heq. by apply list_elem_of_fmap_2.
Qed.

(** X5: the players whose assignment CreateAssignments writes are exactly
    those with a non-empty id among the ids it moves, whatever their
    assignments and the default (with an empty default, a player without an
    assignment is written with the empty string); the count recorded with
    the assignment measures never exceeds the number of ids moved. *)
Theorem CreateAssignments_written_ids (w : World) (a : Assignments.t) :
  exists players ids,
    trace (CreateAssignments w a) !! 0%nat
    = Some (EvUpdateMultiFields players "assignment")
    ∧ trace (CreateAssignments w a) !! 1%nat
      = Some (EvMove ids "proposed" "deindexed")
    ∧ dom players = list_to_set (filter (fun k => k ≠ "") ids)
    ∧ (size players <= length ids)%nat
    ∧ exists m, last (trace (CreateAssignments w a))
                = Some (EvStat m (Z.of_nat (size players))).
Proof.
  eexists _, _. unfold trace. rewrite CreateAssignments_run. cbn zeta.
  split; [by destruct (redisHelpers_UpdateMultiFields w _ _)|].
  split; [by destruct (redisHelpers_UpdateMultiFields w _ _)|].
  split; [|split].
  - rewrite dom_foldl_recordPlayer, dom_empty_L. unfold allPlayerIds.
    by rewrite (left_id_L ∅ (∪)).
  - etrans; [apply foldl_recordPlayer_size|].
    rewrite map_size_empty. unfold allPlayerIds. by rewrite length_fmap.
  - destruct (redisHelpers_UpdateMultiFields w _ _); by eexists.
Qed.

(** X6: when the players of the rosters carry non-empty, pairwise distinct
    ids, every player is written with its effective assignment (its own, or
    the default when it has none), and the count recorded is the number of
    players. *)
Theorem CreateAssignments_distinct_ids (w : World) (a : Assignments.t) :
  NoDup (allPlayerIds (Assignments.Rosters a)) ->
  "" ∉ allPlayerIds (Assignments.Rosters a) ->
  exists players m,
    trace (CreateAssignments w a) !! 0%nat
    = Some (EvUpdateMultiFields players "assignment")
    ∧ (forall p, p ∈ allPlayers (Assignments.Rosters a) ->
         players !! Player.Id p
         = Some (effectiveAssignment (Assignments.Assignment a) p))
    ∧ size players = length (allPlayers (Assignments.Rosters a))
    ∧ last (trace (CreateAssignments w a))
      = Some (EvStat m (Z.of_nat (length (allPlayers (Assignments.Rosters a))))).
Proof.
  intros Hnd Hne.
  assert (size (foldl (recordPlayer (Assignments.Assignment a)) ∅
                      (allPlayers (Assignments.Rosters a)))
          = length (allPlayers (Assignments.Rosters a))) as Hsize.
  { rewrite <- size_dom, dom_foldl_recordPlayer, dom_empty_L, (left_id_L ∅ (∪)).
    fold (allPlayerIds (Assignments.Rosters a)).
    rewrite filter_nonempty_id by done.
    rewrite size_list_to_set by done. unfold allPlayerIds. by rewrite length_fmap. }
  set (players := foldl (recordPlayer (Assignments.Assignment a)) ∅
                        (allPlayers (Assignments.Rosters a))) in *.
  exists players,
    (match redisHelpers_UpdateMultiFields w players "assignment" with
     | Some _ => BeAssignmentFailures
     | None => BeAssignments
     end).
  unfold trace. rewrite CreateAssignments_run. cbn zeta. fold players.
  split; [by destruct (redisHelpers_UpdateMultiFields w _ _)|].
  split; [|split; [exact Hsize|]].
  - intros p Hp. unfold players. rewrite foldl_recordPlayer_lookup.
    rewrite decide_False.
    + by rewrite (last_filter_NoDup_Id _ p Hnd Hp).
    + intros Hid. apply Hne. rewrite <- Hid. unfold allPlayerIds.
      by apply list_elem_of_fmap_2.
  - rewrite <- Hsize. by destruct (redisHelpers_UpdateMultiFields w _ _).
Qed.

Lemma CreateAssignments_distinct_ids_witness :
  exists players m,
    trace (CreateAssignments (demoWorld None None None None None None) demoAssignments)
      !! 0%nat = Some (EvUpdateMultiFields players "assignment")
    ∧ players !! "p1" = Some "srvA" ∧ players !! "p2" = Some "srvB"
    ∧ last (trace (CreateAssignments (demoWorld None None None None None None)
                                     demoAssignments))
      = Some (EvStat m 2%Z).
Proof.
  assert (NoDup (allPlayerIds (Assignments.Rosters demoAssignments))) as Hnd.
  { compute_done. }
  assert ("" ∉ allPlayerIds (Assignments.Rosters demoAssignments)) as Hne.
  { compute_done. }
  destruct (CreateAssignments_distinct_ids
              (demoWorld None None None None None None) demoAssignments Hnd Hne)
    as (players & m & Hfirst & Hall & _ & Hlast).
  exists players, m. split; [exact Hfirst|]. split; [|split; [|exact Hlast]].
  - apply (Hall {| Player.Id := "p1"; Player.Assignment := ""; Player.Rest := "" |}).
    unfold allPlayers. simpl. repeat constructor.
  - apply (Hall {| Player.Id := "p2"; Player.Assignment := "srvB"; Player.Rest := "" |}).
    unfold allPlayers. simpl. repeat constructor.
Defined.

(** The two calls [CreateAssignments] makes to the store. *)
Lemma CreateAssignments_calls (w : World) (a : Assignments.t) :
  trace (CreateAssignments w a) !! 0%nat
  = Some (EvUpdateMultiFields
            (foldl (recordPlayer (Assignments.Assignment a)) ∅
                   (allPlayers (Assignments.Rosters a))) "assignment")
  ∧ trace (CreateAssignments w a) !! 1%nat
    = Some (EvMove (allPlayerIds (Assignments.Rosters a)) "proposed" "deindexed").
Proof.
  unfold trace. rewrite CreateAssignments_run. cbn zeta.
  by destruct (redisHelpers_UpdateMultiFields w _ _).
Qed.

(** The structure [CreateAssignments] leaves. *)
Lemma CreateAssignments_leaves (w : World) (a : Assignments.t) :
  (result (CreateAssignments w a)).1
  = Assignments.setRosters
      (defaultedRoster (Assignments.Assignment a) <$> Assignments.Rosters a) a.
Proof.
  unfold result. rewrite CreateAssignments_run. cbn zeta.
  by destruct (redisHelpers_UpdateMultiFields w _ _).
Qed.

Lemma defaulted_idemp (dflt : string) (p : Player.t) :
  defaulted dflt (defaulted dflt p) = defaulted dflt p.
Proof.
  unfold defaulted at 2 3.
  destruct (decide (Player.Id p ≠ "" ∧ Player.Assignment p = "")) as [[Hid He]|Hn].
  - unfold defaulted. simpl. case_decide; done.
  - unfold defaulted. by rewrite decide_False.
Qed.

Lemma defaultedRoster_idemp (dflt : string) (r : Roster.t) :
  defaultedRoster dflt (defaultedRoster dflt r) = defaultedRoster dflt r.
Proof.
  destruct r as [name ps]. unfold defaultedRoster, Roster.setPlayers. simpl. f_equal.
  rewrite <- list_fmap_compose. apply list_fmap_ext.
  intros i p _. apply defaulted_idemp.
Qed.

Lemma recordPlayer_defaulted (dflt : string) (m : gmap string string) (p : Player.t) :
  recordPlayer dflt m (defaulted dflt p) = recordPlayer dflt m p.
Proof.
  unfold recordPlayer. rewrite defaulted_Id.
  destruct (decide (Player.Id p = "")) as [Hid|Hid]; [done|].
  f_equal. unfold effectiveAssignment at 1.
  rewrite (defaulted_Assignment dflt p Hid). unfold effectiveAssignment.
  destruct (decide (Player.Assignment p = "")) as [He|He].
  - by case_decide.
  - by rewrite decide_False.
Qed.

Lemma foldl_recordPlayer_defaulted (dflt : string) (l : list Player.t)
    (m : gmap string string) :
  foldl (recordPlayer dflt) m (defaulted dflt <$> l) = foldl (recordPlayer dflt) m l.
Proof.
  revert m. induction l as [|p l IH]; intros m; [done|].
  cbn [fmap list_fmap foldl]. by rewrite recordPlayer_defaulted, IH.
Qed.

(** X7: CreateAssignments is idempotent on its input: called again on the
    structure a first call has left, in any world, it writes the same map,
    moves the same ids and leaves the structure as it is. *)
Theorem CreateAssignments_idempotent (w w' : World) (a : Assignments.t) :
  let a' := (result (CreateAssignments w a)).1 in
  (result (CreateAssignments w' a')).1 = a'
  ∧ trace (CreateAssignments w' a') !! 0%nat = trace (CreateAssignments w a) !! 0%nat
  ∧ trace (CreateAssignments w' a') !! 1%nat = trace (CreateAssignments w a) !! 1%nat.
Proof.
  cbn zeta. rewrite (CreateAssignments_leaves w a).
  destruct (CreateAssignments_calls w a) as [-> ->].
  set (d := Assignments.Assignment a). set (rs := Assignments.Rosters a).
  destruct (CreateAssignments_calls w' (Assignments.setRosters (defaultedRoster d <$> rs) a))
    as [-> ->].
  rewrite CreateAssignments_leaves.
  unfold Assignments.setRosters.
  cbn [Assignments.Rosters Assignments.Assignment].
  fold d. split; [|split].
  - f_equal. rewrite <- list_fmap_compose. apply list_fmap_ext.
    intros i r _. apply defaultedRoster_idemp.
  - by rewrite allPlayers_defaulted, foldl_recordPlayer_defaulted.
  - unfold allPlayerIds. rewrite allPlayers_defaulted, <- list_fmap_compose.
    do 2 f_equal. apply list_fmap_ext. intros i p _. apply defaulted_Id.
Qed.

Lemma foldl_recordPlayer_anonymous (dflt : string) (l : list Player.t)
    (m : gmap string string) :
  Forall (fun p => Player.Id p = "") l -> foldl (recordPlayer dflt) m l = m.
Proof.
  induction 1 as [|p l Hp _ IH]; [done|].
  cbn [foldl]. unfold recordPlayer at 2. by rewrite decide_True.
Qed.

Lemma defaultedRosters_anonymous (dflt : string) (rs : list Roster.t) :
  Forall (fun p => Player.Id p = "") (allPlayers rs) ->
  defaultedRoster dflt <$> rs = rs.
Proof.
  unfold allPlayers. induction rs as [|r rs IH]; intros Hall; [done|].
  cbn [fmap list_fmap concat] in *. apply Forall_app in Hall as [Hr Hrs].
  f_equal; [|by apply IH].
  destruct r as [name ps]. unfold defaultedRoster, Roster.setPlayers. simpl in *.
  f_equal. induction Hr as [|p ps Hp _ IHps]; [done|].
  cbn [fmap list_fmap]. f_equal; [|done].
  unfold defaulted. rewrite decide_False; [done|]. by intros [? _].
Qed.

(** X8: when no player carries an id (in particular when there is no roster
    or no player), CreateAssignments still makes its two calls: the batch
    write, with an empty map, and the move, with one empty id for each
    player; it records a count of 0 and leaves the structure as it was. *)
Theorem CreateAssignments_no_ids (w : World) (a : Assignments.t) :
  Forall (fun p => Player.Id p = "") (allPlayers (Assignments.Rosters a)) ->
  exists outcome count,
    trace (CreateAssignments w a)
    = [EvUpdateMultiFields ∅ "assignment";
       EvMove (replicate (length (allPlayers (Assignments.Rosters a))) "")
              "proposed" "deindexed";
       EvStat outcome 1%Z; EvStat count 0%Z]
    ∧ (result (CreateAssignments w a)).1 = a.
Proof.
  intros Hall. unfold trace, result. rewrite CreateAssignments_run. cbn zeta.
  rewrite (foldl_recordPlayer_anonymous _ _ _ Hall).
  rewrite (defaultedRosters_anonymous _ _ Hall).
  assert (allPlayerIds (Assignments.Rosters a)
          = replicate (length (allPlayers (Assignments.Rosters a))) "") as ->.
  { unfold allPlayerIds. induction Hall as [|p l Hp _ IH]; [done|].
    cbn [fmap list_fmap length replicate]. by rewrite Hp, IH. }
  rewrite map_size_empty. destruct a as [rs d].
  destruct (redisHelpers_UpdateMultiFields w _ _); by eexists _, _.
Qed.

Lemma CreateAssignments_no_ids_witness :
  let a := {| Assignments.Rosters :=
                [ {| Roster.Name := "guests";
                     Roster.Players :=
                       [ {| Player.Id := ""; Player.Assignment := "srvB";
                            Player.Rest := "guest" |} ] |} ];
              Assignments.Assignment := "srvA" |} in
  exists outcome count,
    trace (CreateAssignments (demoWorld None None None None None None) a)
    = [EvUpdateMultiFields ∅ "assignment"; EvMove [""] "proposed" "deindexed";
       EvStat outcome 1%Z; EvStat count 0%Z]
    ∧ (result (CreateAssignments (demoWorld None None None None None None) a)).1 = a.
Proof.
  cbn zeta.
  apply (CreateAssignments_no_ids (demoWorld None None None None None None)).
  unfold allPlayers. simpl. by repeat constructor.
Defined.

(** X9: the handlers that answer with a [Result] pair it with the error
    they return: success, an empty [Error] and no error, or failure with
    the message of the error returned in [Error]; the error is the one of
    the single write or deletion in the store (for CreateAssignments, the
    batch write). *)
Theorem Result_paired (w : World) (delete : string -> error)
    (a : Assignments.t) (r : Roster.t) (mo : MatchObject.t) :
  (resultPaired (result (CreateAssignments w a)).2
   ∧ exists players,
       trace (CreateAssignments w a) !! 0%nat
       = Some (EvUpdateMultiFields players "assignment")
       ∧ (result (CreateAssignments w a)).2.2
         = redisHelpers_UpdateMultiFields w players "assignment")
  ∧ (resultPaired (result (DeleteAssignments w r))
     ∧ (result (DeleteAssignments w r)).2
       = redisHelpers_DeleteMultiFields w (getPlayerIdsFromRoster r) "assignment")
  ∧ (resultPaired (DeleteMatch delete mo).1
     ∧ (DeleteMatch delete mo).1.2 = delete (MatchObject.Id mo)
     ∧ exists stat, (DeleteMatch delete mo).2 = [EvDelete (MatchObject.Id mo); stat]).
Proof.
  split; [|split].
  - unfold result, trace, resultPaired. rewrite CreateAssignments_run. cbn zeta.
    destruct (redisHelpers_UpdateMultiFields w _ _) eqn:Hw; simpl;
      (split; [done|]); eexists; (split; [done|]); by rewrite Hw.
  - unfold result, resultPaired. rewrite DeleteAssignments_run. cbn zeta.
    rewrite getPlayerIdsFromRoster_map.
    by destruct (redisHelpers_DeleteMultiFields w _ _).
  - unfold DeleteMatch, resultPaired.
    destruct (delete (MatchObject.Id mo)); simpl; (split; [done|]);
      (split; [done|]); by eexists.
Qed.

(** X10: DeleteAssignments on a roster clears the assignment of every
    player that CreateAssignments wrote for that roster: the ids it clears
    are the ids CreateAssignments moved, and every id of the map written is
    among them.  It moves no player between lists: after it, the players
    are where CreateAssignments put them. *)
Theorem DeleteAssignments_clears_written (w w' : World) (r : Roster.t) (dflt : string) :
  let a := {| Assignments.Rosters := [r]; Assignments.Assignment := dflt |} in
  exists players ids,
    trace (CreateAssignments w a) !! 0%nat
    = Some (EvUpdateMultiFields players "assignment")
    ∧ trace (CreateAssignments w a) !! 1%nat
      = Some (EvMove ids "proposed" "deindexed")
    ∧ trace (DeleteAssignments w' r) !! 0%nat
      = Some (EvDeleteMultiFields ids "assignment")
    ∧ (forall k, k ∈ dom players -> k ∈ ids)
    ∧ Forall (fun ev => isMove ev = false) (trace (DeleteAssignments w' r)).
Proof.
  cbn zeta. eexists _, _.
  split; [apply CreateAssignments_calls|]. split; [apply CreateAssignments_calls|].
  cbn [Assignments.Rosters Assignments.Assignment].
  unfold trace at 1 2. rewrite DeleteAssignments_run. cbn zeta.
  assert (allPlayerIds [r] = Player.Id <$> Roster.Players r) as Hids.
  { unfold allPlayerIds, allPlayers. simpl. by rewrite app_nil_r. }
  rewrite Hids. split; [by destruct (redisHelpers_DeleteMultiFields w' _ _)|].
  split.
  - intros k. rewrite dom_foldl_recordPlayer, dom_empty_L, (left_id_L ∅ (∪)).
    fold (allPlayerIds [r]). rewrite Hids.
    rewrite elem_of_list_to_set. intros Hk. by apply list_elem_of_filter in Hk as [_ ?].
  - destruct (redisHelpers_DeleteMultiFields w' _ _); by repeat constructor.
Qed.

(** ** ListMatches *)

Lemma sent_app (l1 l2 : list Effect) : sent (l1 ++ l2) = sent l1 ++ sent l2.
Proof. apply omap_app. Qed.

Lemma sent_By (funcName : string) (calls : list Event) : sent (By funcName <$> calls) = [].
Proof. induction calls as [|ev calls IH]; [done|]. exact IH. Qed.

Lemma sent_turnLog (s : Stream) (p : MatchObject.t) (i : nat) :
  sent (turnLog s p i) = [(turn s p i).1.1].
Proof. unfold turnLog. by rewrite sent_app, sent_By. Qed.

Lemma sent_turnLogs (s : Stream) (p : MatchObject.t) (l : list nat) :
  sent (concat (turnLog s p <$> l)) = (fun j => (turn s p j).1.1) <$> l.
Proof.
  induction l as [|i l IH]; [done|].
  cbn [fmap list_fmap concat]. by rewrite sent_app, sent_turnLog, IH.
Qed.

(** One turn of the loop. *)
Lemma ListMatches_loop_step (s : Stream) (p : MatchObject.t) (fuel i : nat)
    (log : list Effect) :
  ListMatches_loop s p (S fuel) i log
  = if ctx_Done s i then
      Some (None, log ++ [By "ListMatches" (EvStat BeGrpcRequests 1)])
    else
      match (turn s p i).1.2 with
      | Some e =>
        Some (Some e, log ++ (By "CreateMatch" <$> (turn s p i).2)
                          ++ [By "ListMatches" (EvStat BeGrpcErrors 1)])
      | None => ListMatches_loop s p fuel (S i) (log ++ turnLog s p i)
      end.
Proof.
  cbn [ListMatches_loop]. unfold turnLog, turn.
  destruct (ctx_Done s i); [done|].
  destruct (run (CreateMatch (worldAt s i) p)) as [[mo [e|]] calls]; simpl.
  - by rewrite <- app_assoc.
  - by rewrite <- app_assoc.
Qed.

(** [n] turns that run to their end. *)
Lemma ListMatches_loop_turns (s : Stream) (p : MatchObject.t) (n fuel i : nat)
    (log : list Effect) :
  (forall j, (j < n)%nat ->
     ctx_Done s (i + j) = false ∧ (turn s p (i + j)).1.2 = None) ->
  ListMatches_loop s p (n + fuel) i log
  = ListMatches_loop s p fuel (i + n) (log ++ concat (turnLog s p <$> seq i n)).
Proof.
  revert i log. induction n as [|n IH]; intros i log Hturns.
  - simpl. by rewrite Nat.add_0_r, app_nil_r.
  - destruct (Hturns 0%nat) as [Hdone Hok]; [lia|]. rewrite Nat.add_0_r in Hdone, Hok.
    change (S n + fuel)%nat with (S (n + fuel)).
    rewrite ListMatches_loop_step, Hdone, Hok, IH.
    + cbn [seq fmap list_fmap concat]. rewrite <- app_assoc. f_equal. lia.
    + intros j Hj. replace (S i + j)%nat with (i + S j)%nat by lia.
      apply Hturns. lia.
Qed.

Lemma ListMatches_turns (s : Stream) (p : MatchObject.t) (n fuel : nat) :
  turnsCompleted s p n ->
  ListMatches s p (n + fuel) = ListMatches_loop s p fuel n (turnsLog s p n).
Proof.
  intros Hturns. unfold ListMatches. by rewrite ListMatches_loop_turns.
Qed.

(** The loop returns only at the head of a turn whose context is done, or
    after a turn whose [CreateMatch] returned an error. *)
Lemma ListMatches_loop_inv (s : Stream) (p : MatchObject.t) (fuel i : nat)
    (log : list Effect) (r : error) (log' : list Effect) :
  ListMatches_loop s p fuel i log = Some (r, log') ->
  exists n,
    (n < fuel)%nat
    ∧ (forall j, (j < n)%nat ->
         ctx_Done s (i + j) = false ∧ (turn s p (i + j)).1.2 = None)
    ∧ ((ctx_Done s (i + n) = true ∧ r = None
        ∧ log' = log ++ concat (turnLog s p <$> seq i n)
                     ++ [By "ListMatches" (EvStat BeGrpcRequests 1)])
       ∨ (ctx_Done s (i + n) = false
          ∧ exists e, (turn s p (i + n)).1.2 = Some e ∧ r = Some e
            ∧ log' = log ++ concat (turnLog s p <$> seq i n)
                         ++ (By "CreateMatch" <$> (turn s p (i + n)).2)
                         ++ [By "ListMatches" (EvStat BeGrpcErrors 1)])).
Proof.
  revert i log. induction fuel as [|fuel IH]; intros i log Hrun; [done|].
  rewrite ListMatches_loop_step in Hrun.
  destruct (ctx_Done s i) eqn:Hdone.
  { injection Hrun as <- <-. exists 0%nat. rewrite Nat.add_0_r.
    split; [lia|]. split; [intros j Hj; lia|]. left. by rewrite Hdone. }
  destruct ((turn s p i).1.2) as [e|] eqn:Hturn.
  { injection Hrun as <- <-. exists 0%nat. rewrite Nat.add_0_r.
    split; [lia|]. split; [intros j Hj; lia|]. right.
    split; [done|]. by exists e. }
  apply IH in Hrun as (n & Hn & Hturns & Hend).
  exists (S n). replace (i + S n)%nat with (S i + n)%nat by lia.
  split; [lia|]. split.
  - intros [|j] Hj; [by rewrite Nat.add_0_r|].
    replace (i + S j)%nat with (S i + j)%nat by lia. apply Hturns. lia.
  - cbn [seq fmap list_fmap concat].
    destruct Hend as [(Hd & -> & ->)|(Hd & e & He & -> & ->)]; [left|right].
    + by rewrite <- !app_assoc.
    + split; [done|]. exists e. by rewrite <- !app_assoc.
Qed.


(** A turn whose watch is closed returns an error that says so. *)
Lemma turn_closed (s : Stream) (p : MatchObject.t) (i : nat) :
  watchClosed (worldAt s i) p ->
  exists msg, (turn s p i).1.2 = Some msg
    ∧ contains msg "channel closed"
    ∧ match ctx_Err (worldAt s i) with
      | Some e => contains msg e
      | None => contains msg "backoff deadline exceeded"
      end.
Proof.
  intros (Hw & Hq & Hrecv). unfold turn. rewrite CreateMatch_run. cbn zeta.
  rewrite Hw, Hq, Hrecv. simpl. eexists. split; [done|].
  rewrite closedMO_Error. destruct (ctx_Err (worldAt s i)) as [e|].
  - split.
    + exists "Error retrieving matchmaking results from state storage: ", (": " +:+ e).
      done.
    + apply contains_app_l, contains_suffix.
  - split.
    + by exists "Error retrieving matchmaking results from state storage: ",
        ": backoff deadline exceeded".
    + apply contains_app_l.
      apply (contains_suffix "channel closed: " "backoff deadline exceeded").
Qed.

(** X11: when the context is found done at the head of turn [n], every turn
    before having run to its end, ListMatches returns no error.  It has
    sent [n] messages, the results of the [n] calls of CreateMatch in the
    order of the calls, each followed by a pause of two seconds; nothing is
    sent once the context is seen done, and the last thing recorded is the
    request counter. *)
Theorem ListMatches_cancelled (s : Stream) (p : MatchObject.t) (n fuel : nat) :
  turnsCompleted s p n ->
  ctx_Done s n = true ->
  (n < fuel)%nat ->
  ListMatches s p fuel
  = Some (None, turnsLog s p n ++ [By "ListMatches" (EvStat BeGrpcRequests 1)])
  ∧ sent (turnsLog s p n ++ [By "ListMatches" (EvStat BeGrpcRequests 1)])
    = (fun j => (turn s p j).1.1) <$> seq 0 n.
Proof.
  intros Hturns Hdone Hfuel. split.
  - replace fuel with (n + S (fuel - S n))%nat by lia.
    rewrite (ListMatches_turns s p n _ Hturns), ListMatches_loop_step.
    by rewrite Hdone.
  - unfold turnsLog. by rewrite sent_app, sent_turnLogs, app_nil_r.
Qed.

Lemma ListMatches_cancelled_witness :
  let w := demoWorld None None (Some (demoMatch "{}" "")) None None None in
  exists log,
    ListMatches (demoStream 2 w) (demoProfile "{}") 3 = Some (None, log)
    ∧ sent log = [demoMatch "{}" ""; demoMatch "{}" ""].
Proof.
  cbn zeta.
  destruct (ListMatches_cancelled
              (demoStream 2 (demoWorld None None (Some (demoMatch "{}" "")) None None None))
              (demoProfile "{}") 2 3) as [Hrun Hsent].
  - intros [|[|j]] Hj; [by split|by split|lia].
  - reflexivity.
  - lia.
  - eexists. split; [exact Hrun|exact Hsent].
Defined.

(** X12: the first call of CreateMatch that returns an error ends
    ListMatches, which returns that error: the result of the failed call is
    not sent, no further call is made, and the messages sent are the results
    of the calls before, in order.  The last thing recorded is the error
    counter. *)
Theorem ListMatches_first_error (s : Stream) (p : MatchObject.t) (k fuel : nat)
    (e : string) :
  turnsCompleted s p k ->
  ctx_Done s k = false ->
  (turn s p k).1.2 = Some e ->
  (k < fuel)%nat ->
  ListMatches s p fuel
  = Some (Some e, turnsLog s p k ++ (By "CreateMatch" <$> (turn s p k).2)
                    ++ [By "ListMatches" (EvStat BeGrpcErrors 1)])
  ∧ sent (turnsLog s p k ++ (By "CreateMatch" <$> (turn s p k).2)
            ++ [By "ListMatches" (EvStat BeGrpcErrors 1)])
    = (fun j => (turn s p j).1.1) <$> seq 0 k.
Proof.
  intros Hturns Hdone Herr Hfuel. split.
  - replace fuel with (k + S (fuel - S k))%nat by lia.
    rewrite (ListMatches_turns s p k _ Hturns), ListMatches_loop_step.
    by rewrite Hdone, Herr.
  - unfold turnsLog. by rewrite !sent_app, sent_turnLogs, sent_By, !app_nil_r.
Qed.

Lemma ListMatches_first_error_witness :
  let ok := demoWorld None None (Some (demoMatch "{}" "")) None None None in
  let down := demoWorld (Some "EOF") None None None None None in
  exists log,
    ListMatches (demoStreamFrom 1 ok down) (demoProfile "{}") 5 = Some (Some "EOF", log)
    ∧ sent log = [demoMatch "{}" ""].
Proof.
  cbn zeta.
  destruct (ListMatches_first_error
              (demoStreamFrom 1
                 (demoWorld None None (Some (demoMatch "{}" "")) None None None)
                 (demoWorld (Some "EOF") None None None None None))
              (demoProfile "{}") 1 5 "EOF") as [Hrun Hsent].
  - intros [|j] Hj; [by split|lia].
  - reflexivity.
  - reflexivity.
  - lia.
  - eexists. split; [exact Hrun|exact Hsent].
Defined.

(** X13: ListMatches returns only when it finds the context done at the
    head of a turn (then without an error) or when a call of CreateMatch
    returns an error (then with that error); all turns before ran to their
    end, and as many messages were sent. *)
Theorem ListMatches_returns_only (s : Stream) (p : MatchObject.t) (fuel : nat)
    (r : error) (log : list Effect) :
  ListMatches s p fuel = Some (r, log) ->
  exists n,
    (n < fuel)%nat
    ∧ turnsCompleted s p n
    ∧ sent log = (fun j => (turn s p j).1.1) <$> seq 0 n
    ∧ ((ctx_Done s n = true ∧ r = None)
       ∨ (ctx_Done s n = false ∧ r ≠ None ∧ r = (turn s p n).1.2)).
Proof.
  intros Hrun. apply ListMatches_loop_inv in Hrun as (n & Hn & Hturns & Hend).
  exists n. split; [done|]. split; [exact Hturns|].
  destruct Hend as [(Hd & -> & ->)|(Hd & e & He & -> & ->)].
  - split; [|by left]. cbn [app]. by rewrite sent_app, sent_turnLogs, app_nil_r.
  - split; [|right; simpl in *; by rewrite He].
    cbn [app]. by rewrite !sent_app, sent_turnLogs, sent_By, !app_nil_r.
Qed.

Lemma ListMatches_returns_only_witness :
  exists n,
    (n < 3)%nat
    ∧ ctx_Done (demoStream 2
                  (demoWorld None None (Some (demoMatch "{}" "")) None None None)) n
      = true.
Proof.
  destruct (ListMatches_returns_only
              (demoStream 2 (demoWorld None None (Some (demoMatch "{}" "")) None None None))
              (demoProfile "{}") 3 None _ eq_refl)
    as (n & Hn & _ & _ & [[Hdone _]|[_ [Herr _]]]); [|done].
  by exists n.
Defined.

(** X14: ListMatches does not end on its own: as long as the context is not
    done and the calls of CreateMatch return no error, the loop goes on,
    however many turns it is given. *)
Theorem ListMatches_runs_on (s : Stream) (p : MatchObject.t) (fuel : nat) :
  (forall n, turnsCompleted s p n) ->
  ListMatches s p fuel = None.
Proof.
  intros Hturns. destruct (ListMatches s p fuel) as [[r log]|] eqn:Hrun; [|done].
  apply ListMatches_loop_inv in Hrun as (n & _ & _ & Hend).
  destruct (Hturns (S n) n) as [Hdone Hok]; [lia|].
  destruct Hend as [(Hd & _)|(_ & e & He & _)]; simpl in *; congruence.
Qed.

Lemma ListMatches_runs_on_witness :
  ListMatches
    (demoStreamFrom 0 (demoWorld None None (Some (demoMatch "{}" "")) None None None)
                      (demoWorld None None (Some (demoMatch "{}" "")) None None None))
    (demoProfile "{}") 25
  = None.
Proof.
  apply ListMatches_runs_on. intros n j _. split; [reflexivity|].
  unfold turn, demoStreamFrom. cbn [worldAt]. by case_bool_decide.
Defined.



(** X16: a watch that closes during a turn ends the stream with an error,
    also when it closes because the caller cancelled: ListMatches returns
    the error of CreateMatch, which names the closed channel and the cause,
    and not the nil of a cancellation found at the head of a turn. *)
Theorem ListMatches_closed_watch (s : Stream) (p : MatchObject.t) (k fuel : nat) :
  turnsCompleted s p k ->
  ctx_Done s k = false ->
  watchClosed (worldAt s k) p ->
  (k < fuel)%nat ->
  exists msg log,
    ListMatches s p fuel = Some (Some msg, log)
    ∧ contains msg "channel closed"
    ∧ match ctx_Err (worldAt s k) with
      | Some e => contains msg e
      | None => contains msg "backoff deadline exceeded"
      end
    ∧ length (sent log) = k.
Proof.
  intros Hturns Hdone Hclosed Hfuel.
  destruct (turn_closed s p k Hclosed) as (msg & Hmsg & Hchan & Hcause).
  exists msg. eexists. split; [|split; [exact Hchan|split; [exact Hcause|]]].
  - replace fuel with (k + S (fuel - S k))%nat by lia.
    rewrite (ListMatches_turns s p k _ Hturns), ListMatches_loop_step.
    by rewrite Hdone, Hmsg.
  - unfold turnsLog.
    rewrite !sent_app, sent_turnLogs, sent_By, !app_nil_r.
    by rewrite length_fmap, length_seq.
Qed.

Lemma ListMatches_closed_watch_witness :
  let ok := demoWorld None None (Some (demoMatch "{}" "")) None None None in
  let cancelled := demoWorld None None None (Some "context canceled") None None in
  exists msg log,
    ListMatches (demoStreamFrom 1 ok cancelled) (demoProfile "{}") 5
    = Some (Some msg, log)
    ∧ contains msg "context canceled".
Proof.
  cbn zeta.
  destruct (ListMatches_closed_watch
              (demoStreamFrom 1
                 (demoWorld None None (Some (demoMatch "{}" "")) None None None)
                 (demoWorld None None None (Some "context canceled") None None))
              (demoProfile "{}") 1 5) as (msg & log & Hrun & _ & Hcause & _).
  - intros [|j] Hj; [by split|lia].
  - reflexivity.
  - by repeat split.
  - lia.
  - by exists msg, log.
Defined.
